(** * api_framework: rate limiting and retrying HTTP client

    A shallow embedding of [src/api_framework.py] (class [APIClient]) and of
    the library calls it is built on.

    - Python numbers used as instants and durations ([time.time()],
      [time.sleep], [backoff_factor], [1.0 / requests_per_second]) are
      exact rationals [Q]; [int] arguments are [Z].
    - The outside world is an environment [Env]: how long every interaction
      with the clock, the sleeper or the network really takes, and what
      every transport attempt comes back with.  The functions below are
      executable once an environment is given.
    - A response is its status code and its decoded body.  Headers are not
      modelled, so what the libraries do on a [Retry-After] or [Location]
      header (honouring the announced wait, following a redirect) is
      outside this development.
    - [Module time], [Module urllib3] and [Module requests] give the
      behaviour of the library functions the client calls, specialised to
      the arguments [APIClient.__init__] passes; [Module APIClient] is the
      class of the repository, method by method ([close] and the context
      manager methods only release the session and are left out).
    - [Module threads] is [_rate_limit] once more, statement by statement,
      for callers that share a client across threads.
    - [Module GeminiClient] is the subclass of [src/gemini-client.py];
      its strings are taken as ASCII text. *)

From Stdlib Require Import ZArith QArith Qminmax Lqa Lia List String Ascii Bool.
Import ListNotations.

Open Scope string_scope.
Open Scope list_scope.
Open Scope Q_scope.

(** ** Values, responses, exceptions *)

(** A decoded JSON document; its structure plays no role here. *)
Definition Json := string.

(** What a Python call hands back to its caller. *)
Inductive PyValue :=
| PyNone
| PyJson (j : Json).

(** A Python [dict] of query parameters or of a payload. *)
Definition Dict := list (string * string).

(** The keyword arguments a verb hands on to the session. *)
Inductive KwValue :=
| KwInt (z : Z)
| KwDict (d : option Dict).

Definition Kwargs := list (string * KwValue).

(** [requests.Response]: the status code, and what [r.json()] yields
    ([None] when the body is not a JSON document). *)
Record Response := mkResponse {
  status_code : Z;
  json_body : option Json
}.

(** Transport-level failures, in the three classes [Retry.increment]
    tells apart. *)
Inductive TransportError :=
| ConnectError   (* connection refused, connect timeout, DNS failure *)
| ReadError      (* read timeout, connection reset after the request was sent *)
| OtherError.    (* anything else the connection pool catches, e.g. SSL *)

(** One network exchange either brings a response or fails. *)
Inductive Outcome :=
| Responded (r : Response)
| Failed (e : TransportError).

Inductive Exception :=
| ZeroDivisionError
| ValueError
| RecursionError
| MaxRetryError (cause : Outcome)        (* urllib3 *)
| Reraised (e : TransportError)          (* urllib3 re-raising the transport's error *)
| ConnectionError (e : TransportError)   (* requests.exceptions.ConnectionError family *)
| RetryError (status : Z)                (* requests.exceptions.RetryError *)
| HTTPError (status : Z)                 (* requests.exceptions.HTTPError *)
| JSONDecodeError.

Inductive Result (A : Type) :=
| Ok (a : A)
| Raise (e : Exception).
Arguments Ok {A} a.
Arguments Raise {A} e.

(** ** The world: clock, sleeper, network *)

(** [lag k] is the real time the k-th interaction with the world takes on
    top of what was asked for (the time a clock read or a network exchange
    takes, the time a sleep overruns); [reply n] is what the n-th transport
    attempt made through the session comes back with. *)
Record Env := mkEnv {
  lag : nat -> Q;
  reply : nat -> Outcome
}.

(** Observable effects, in the order they happen. *)
Inductive Event :=
| Slept (secs : Q)              (* time.sleep(secs) was called *)
| Stamped (t : Q)               (* self._last_call = t *)
| Sent (t : Q) (o : Outcome).   (* a transport attempt started at t and ended in o *)

(** [_last_call] is the one mutable attribute of the client; the rest is
    the state of the world. *)
Record State := mkState {
  clock : Q;
  tick : nat;
  sent : nat;
  _last_call : Q;
  trace : list Event
}.

(** Computations: read the environment, thread the state, return or raise. *)
Definition M (A : Type) : Type := Env -> State -> Result A * State.

Definition ret {A} (a : A) : M A := fun _ s => (Ok a, s).

Definition raise {A} (e : Exception) : M A := fun _ s => (Raise e, s).

Definition bind {A B} (m : M A) (k : A -> M B) : M B :=
  fun env s =>
    match m env s with
    | (Ok a, s') => k a env s'
    | (Raise e, s') => (Raise e, s')
    end.

Notation "x <- m ;; k" := (bind m (fun x => k))
  (at level 61, m at next level, right associativity).
Notation "m ;; k" := (bind m (fun _ => k))
  (at level 61, right associativity).

Definition Qlt_bool (x y : Q) : bool := negb (Qle_bool y x).

Module time.

(** [time.time()]: the clock, after the time the call itself took. *)
Definition time : M Q := fun env s =>
  let t := clock s + lag env (tick s) in
  (Ok t, mkState t (S (tick s)) (sent s) (_last_call s) (trace s)).

(** [time.sleep(secs)]: at least [secs] go by; a negative argument is a
    [ValueError]. *)
Definition sleep (secs : Q) : M unit := fun env s =>
  if Qlt_bool secs 0 then (Raise ValueError, s)
  else
    (Ok tt, mkState (clock s + secs + lag env (tick s)) (S (tick s)) (sent s)
                    (_last_call s) (trace s ++ [Slept secs])).

End time.

(** One exchange with the server: the attempt starts now, takes [lag], and
    ends in what the environment replies to the attempt of that rank. *)
Definition transport_send : M Outcome := fun env s =>
  let o := reply env (sent s) in
  (Ok o, mkState (clock s + lag env (tick s)) (S (tick s)) (S (sent s))
                 (_last_call s) (trace s ++ [Sent (clock s) o])).

(** Python's [str.upper] on ASCII letters. *)
Definition upper_ascii (c : ascii) : ascii :=
  let n := nat_of_ascii c in
  if andb (97 <=? n)%nat (n <=? 122)%nat then ascii_of_nat (n - 32) else c.

Fixpoint upper (s : string) : string :=
  match s with
  | EmptyString => EmptyString
  | String c s' => String (upper_ascii c) (upper s')
  end.

(** Python's [str.rstrip("/")]. *)
Fixpoint rstrip_slash (s : string) : string :=
  match s with
  | EmptyString => EmptyString
  | String c s' =>
      match rstrip_slash s' with
      | EmptyString => if Ascii.eqb c "/"%char then EmptyString else String c EmptyString
      | t => String c t
      end
  end.

(** ** urllib3: the retry engine

    [urllib3.util.retry.Retry] and the loop of
    [HTTPConnectionPool.urlopen] that drives it.  Of the counters of a
    [Retry] only [total] is set by the client ([connect], [read],
    [redirect], [status] and [other] stay [None]), so only [total] is kept.
    requests calls [urlopen] with [redirect=False], so no entry of
    [history] is a redirect and the "last consecutive errors" of
    [get_backoff_time] are the whole history. *)
Module urllib3.

Record Retry := mkRetry {
  total : Z;
  backoff_factor : Q;
  status_forcelist : list Z;
  allowed_methods : list string;
  raise_on_status : bool;
  history : list Outcome
}.

(** [Retry.DEFAULT_BACKOFF_MAX] (the default of [backoff_max]). *)
Definition DEFAULT_BACKOFF_MAX : Q := 120.

Definition _is_method_retryable (self : Retry) (method : string) : bool :=
  match allowed_methods self with
  | [] => true
  | ms => existsb (String.eqb (upper method)) ms
  end.

(** [is_retry]: should a response with this status be retried?  The
    second clause of the library function needs a [Retry-After] header
    and is false for the responses modelled here. *)
Definition is_retry (self : Retry) (method : string) (status : Z) : bool :=
  if negb (_is_method_retryable self method) then false
  else existsb (Z.eqb status) (status_forcelist self).

(** [is_exhausted]: the counters that are neither [None] nor [0] are
    collected, and the retries are exhausted when their least is
    negative. *)
Definition is_exhausted (self : Retry) : bool :=
  if (total self =? 0)%Z then false else (total self <? 0)%Z.

(** [increment]: a new [Retry] with one retry less and the failure
    appended to the history; raises once exhausted.  A read error on a
    method outside [allowed_methods] is re-raised as it is. *)
Definition increment (self : Retry) (method : string) (o : Outcome)
  : Result Retry :=
  let new_retry :=
    mkRetry (total self - 1)%Z (backoff_factor self) (status_forcelist self)
            (allowed_methods self) (raise_on_status self)
            (history self ++ [o]) in
  let counted :=
    if is_exhausted new_retry then Raise (MaxRetryError o) else Ok new_retry in
  match o with
  | Failed ReadError =>
      if negb (_is_method_retryable self method)
      then Raise (Reraised ReadError) else counted
  | _ => counted
  end.

(** [get_backoff_time]: [0] while at most one error is in the history,
    then [backoff_factor * 2 ** (consecutive_errors_len - 1)], never more
    than [DEFAULT_BACKOFF_MAX].  (The library documents the sleeps for a
    factor of 0.1 as 0.0 s, 0.2 s, 0.4 s, ...; it adds no jitter unless
    asked to.) *)
Definition get_backoff_time (self : Retry) : Q :=
  let consecutive_errors_len := Z.of_nat (List.length (history self)) in
  if (consecutive_errors_len <=? 1)%Z then 0
  else
    let backoff_value :=
      backoff_factor self * inject_Z (2 ^ (consecutive_errors_len - 1)) in
    if Qlt_bool backoff_value DEFAULT_BACKOFF_MAX
    then backoff_value else DEFAULT_BACKOFF_MAX.

Definition _sleep_backoff (self : Retry) : M unit :=
  let backoff := get_backoff_time self in
  if Qle_bool backoff 0 then ret tt else time.sleep backoff.

(** [Retry.sleep]: without a [Retry-After] header, the backoff. *)
Definition sleep (self : Retry) : M unit := _sleep_backoff self.

(** [urlopen]: make the request; on a transport error, or on a response
    [is_retry] selects, count the retry, sleep and call itself again.
    The library function is recursive in the same way; [fuel] bounds the
    depth of the recursion. *)
Fixpoint urlopen (fuel : nat) (retries : Retry) (method url : string)
  : M Response :=
  match fuel with
  | O => raise RecursionError
  | S fuel' =>
      o <- transport_send ;;
      match o with
      | Failed e =>
          match increment retries method o with
          | Raise x => raise x
          | Ok retries' =>
              sleep retries' ;; urlopen fuel' retries' method url
          end
      | Responded response =>
          if is_retry retries method (status_code response) then
            match increment retries method o with
            | Raise x =>
                if raise_on_status retries then raise x else ret response
            | Ok retries' =>
                sleep retries' ;; urlopen fuel' retries' method url
            end
          else ret response
      end
  end.

End urllib3.

(** ** requests: session, adapter, response *)
Module requests.

Record HTTPAdapter := mkHTTPAdapter {
  max_retries : urllib3.Retry
}.

(** Recursion depth that [urlopen] cannot exceed: one call per retry
    still allowed, and the first. *)
Definition depth (r : urllib3.Retry) : nat := S (Z.to_nat (urllib3.total r)).

(** [HTTPAdapter.send]: run the pool's [urlopen] under the adapter's
    retry policy and translate urllib3's exceptions. *)
Definition send (self : HTTPAdapter) (method url : string) : M Response :=
  fun env s =>
    match urllib3.urlopen (depth (max_retries self)) (max_retries self)
                          method url env s with
    | (Raise (MaxRetryError (Failed e)), s') => (Raise (ConnectionError e), s')
    | (Raise (MaxRetryError (Responded r)), s') =>
        (Raise (RetryError (status_code r)), s')
    | (Raise (Reraised e), s') => (Raise (ConnectionError e), s')
    | other => other
    end.

(** The same adapter is mounted for ["http://"] and ["https://"]. *)
Record Session := mkSession {
  headers : list (string * string);
  adapter : HTTPAdapter
}.

(** [Session.request(method, url, **kwargs)]: the keyword arguments
    (parameters, payload, per-attempt timeout) go into the request that is
    sent; what comes back is up to the environment. *)
Definition request (self : Session) (method url : string) (kwargs : Kwargs)
  : M Response :=
  send (adapter self) (upper method) url.

(** [Response.raise_for_status]. *)
Definition raise_for_status (r : Response) : M unit :=
  if andb (400 <=? status_code r)%Z (status_code r <? 600)%Z
  then raise (HTTPError (status_code r))
  else ret tt.

(** [Response.json]. *)
Definition json (r : Response) : M Json :=
  match json_body r with
  | Some j => ret j
  | None => raise JSONDecodeError
  end.

End requests.

(** ** The client: [class APIClient] *)
Module APIClient.

(** The attributes [__init__] sets and nothing changes afterwards;
    the mutable [_last_call] is in the [State]. *)
Record t := mk {
  base_url : string;
  timeout : Z;
  requests_per_second : Z;
  session : requests.Session
}.

(** The object [__init__] builds: lines 28-30 and 33-50. *)
Definition new (base_url : string) (api_key : option string)
    (requests_per_second timeout max_retries : Z) (backoff_factor : Q) : t :=
  let headers :=
    ("User-Agent", "Axiom-API-Framework/1.0") ::
    match api_key with
    | Some (String c k) => [("Authorization", ("Bearer " ++ String c k)%string)]
    | _ => []
    end in
  let retry_strategy :=
    urllib3.mkRetry max_retries backoff_factor [429; 500; 502; 503; 504]%Z
                    ["GET"; "POST"; "PUT"; "DELETE"; "PATCH"] false [] in
  let adapter := requests.mkHTTPAdapter retry_strategy in
  mk (rstrip_slash base_url) timeout requests_per_second
     (requests.mkSession headers adapter).

(** [__init__]: the object above, and [self._last_call = 0] (line 31). *)
Definition __init__ (base_url : string) (api_key : option string)
    (requests_per_second timeout max_retries : Z) (backoff_factor : Q)
  : M t :=
  fun _ s =>
    (Ok (new base_url api_key requests_per_second timeout max_retries
             backoff_factor),
     mkState (clock s) (tick s) (sent s) 0 (trace s)).

(** [1.0 / self.requests_per_second]. *)
Definition truediv (x : Q) (y : Z) : M Q :=
  if (y =? 0)%Z then raise ZeroDivisionError else ret (x / inject_Z y).

Definition set_last_call (t : Q) : M unit := fun _ s =>
  (Ok tt, mkState (clock s) (tick s) (sent s) t (trace s ++ [Stamped t])).

Definition get_last_call : M Q := fun _ s => (Ok (_last_call s), s).

Definition _rate_limit (self : t) : M unit :=
  now <- time.time ;;
  last <- get_last_call ;;
  let elapsed := now - last in
  min_interval <- truediv 1 (requests_per_second self) ;;
  (if Qlt_bool elapsed min_interval
   then time.sleep (min_interval - elapsed)
   else ret tt) ;;
  stamp <- time.time ;;
  set_last_call stamp.

(** [dict.setdefault]. *)
Fixpoint setdefault (k : string) (v : KwValue) (kwargs : Kwargs) : Kwargs :=
  match kwargs with
  | [] => [(k, v)]
  | (k', v') :: rest =>
      if String.eqb k k' then kwargs else (k', v') :: setdefault k v rest
  end.

Definition _request (self : t) (method endpoint : string) (kwargs : Kwargs)
  : M Response :=
  _rate_limit self ;;
  let url := (base_url self ++ endpoint)%string in
  let kwargs := setdefault "timeout" (KwInt (timeout self)) kwargs in
  requests.request (session self) (upper method) url kwargs.

Definition get (self : t) (endpoint : string) (params : option Dict)
  : M PyValue :=
  r <- _request self "GET" endpoint [("params", KwDict params)] ;;
  requests.raise_for_status r ;;
  j <- requests.json r ;;
  ret (PyJson j).

Definition post (self : t) (endpoint : string) (data json : option Dict)
  : M PyValue :=
  r <- _request self "POST" endpoint [("data", KwDict data); ("json", KwDict json)] ;;
  requests.raise_for_status r ;;
  j <- requests.json r ;;
  ret (PyJson j).

Definition put (self : t) (endpoint : string) (data json : option Dict)
  : M PyValue :=
  r <- _request self "PUT" endpoint [("data", KwDict data); ("json", KwDict json)] ;;
  requests.raise_for_status r ;;
  j <- requests.json r ;;
  ret (PyJson j).

(** [delete] is declared [-> None] and has no [return]. *)
Definition delete (self : t) (endpoint : string) : M PyValue :=
  r <- _request self "DELETE" endpoint [] ;;
  requests.raise_for_status r ;;
  ret PyNone.

End APIClient.

(** ** Reading a run *)

(** The instants the rate limiter stamped, the instants transport
    attempts started, and the sleeps asked for, in order. *)
Fixpoint stamps (l : list Event) : list Q :=
  match l with
  | [] => []
  | Stamped t :: l' => t :: stamps l'
  | _ :: l' => stamps l'
  end.

Fixpoint starts (l : list Event) : list Q :=
  match l with
  | [] => []
  | Sent t _ :: l' => t :: starts l'
  | _ :: l' => starts l'
  end.

Fixpoint sleeps (l : list Event) : list Q :=
  match l with
  | [] => []
  | Slept d :: l' => d :: sleeps l'
  | _ :: l' => sleeps l'
  end.

(** Each instant of the list is at least [d] after the one before. *)
Fixpoint spaced (d : Q) (l : list Q) : Prop :=
  match l with
  | [] => True
  | x :: l' =>
      match l' with
      | [] => True
      | y :: _ => x + d <= y /\ spaced d l'
      end
  end.

(** Time never runs backwards and no interaction takes negative time. *)
Definition causal (env : Env) : Prop := forall k, 0 <= lag env k.

(** The final state of a computation, whatever it returned. *)
Definition after {A} (m : M A) (env : Env) (s : State) : State := snd (m env s).



(** A caller making calls one after the other on one client, going on
    after a call that raised. *)
Inductive Call :=
| Get (endpoint : string) (params : option Dict)
| Post (endpoint : string) (data json : option Dict)
| Put (endpoint : string) (data json : option Dict)
| Delete (endpoint : string).

Definition perform (self : APIClient.t) (c : Call) : M PyValue :=
  match c with
  | Get e p => APIClient.get self e p
  | Post e d j => APIClient.post self e d j
  | Put e d j => APIClient.put self e d j
  | Delete e => APIClient.delete self e
  end.

Definition method_of (c : Call) : string :=
  match c with
  | Get _ _ => "GET"
  | Post _ _ _ => "POST"
  | Put _ _ _ => "PUT"
  | Delete _ => "DELETE"
  end.

Definition endpoint_of (c : Call) : string :=
  match c with
  | Get e _ | Post e _ _ | Put e _ _ | Delete e => e
  end.

Definition kwargs_of (c : Call) : Kwargs :=
  match c with
  | Get _ p => [("params", KwDict p)]
  | Post _ d j | Put _ d j => [("data", KwDict d); ("json", KwDict j)]
  | Delete _ => []
  end.

Fixpoint run_calls (self : APIClient.t) (cs : list Call) (env : Env) (s : State)
  : State :=
  match cs with
  | [] => s
  | c :: cs' => run_calls self cs' env (after (perform self c) env s)
  end.

(** The retry state [urlopen] holds after the given attempts all failed. *)
Fixpoint after_failures (r : urllib3.Retry) (method : string) (os : list Outcome)
  : Result urllib3.Retry :=
  match os with
  | [] => Ok r
  | o :: os' =>
      match urllib3.increment r method o with
      | Ok r' => after_failures r' method os'
      | Raise x => Raise x
      end
  end.

(** What a library call made for one request may change: the clock moves
    forward and attempts are counted; the client's stamp is left alone. *)
Definition frame (s s' : State) : Prop :=
  clock s <= clock s' /\
  _last_call s' = _last_call s /\
  stamps (trace s') = stamps (trace s) /\
  (sent s <= sent s')%nat.

(** [1.0 / self.requests_per_second], for a rate that is not zero. *)
Definition min_interval (self : APIClient.t) : Q :=
  1 / inject_Z (APIClient.requests_per_second self).

(** An outcome the retry policy [r] retries for this method (as long as
    retries are left). *)
Definition retry_outcome (r : urllib3.Retry) (method : string) (o : Outcome)
  : Prop :=
  match o with
  | Failed _ => True
  | Responded resp => urllib3.is_retry r method (status_code resp) = true
  end.

(** The retry policy [APIClient.__init__] mounts on the session. *)
Definition policy (self : APIClient.t) : urllib3.Retry :=
  requests.max_retries (requests.adapter (APIClient.session self)).

(** ** Scenarios *)

(** The client of [example_usage.py]: 5 requests per second, 4 retries,
    backoff factor 1.0. *)
Definition example_client : APIClient.t :=
  APIClient.new "https://jsonplaceholder.typicode.com" None 5 30 4 1.

(** A client held to 1 request per second whose retries back off from
    0.1 s. *)
Definition slow_client : APIClient.t :=
  APIClient.new "https://jsonplaceholder.typicode.com" None 1 30 4 (1 # 10).

(** A server that answers every attempt at once with the same status and
    an empty JSON object, and a world where nothing takes longer than
    asked. *)
Definition steady (status : Z) : Env :=
  mkEnv (fun _ => 0) (fun _ => Responded (mkResponse status (Some "{}"))).

(** A server that answers 500 twice and 200 with a JSON list from then
    on. *)
Definition recovering : Env :=
  mkEnv (fun _ => 0)
        (fun n => if (n <? 2)%nat
                  then Responded (mkResponse 500 None)
                  else Responded (mkResponse 200 (Some "[]"))).

(** The world at clock reading [t], before anything happened; the client's
    stamp is the [0] its constructor sets. *)
Definition idle (t : Q) : State := mkState t 0 0 0 [].

(** ** Several callers on one client

    [_rate_limit] statement by statement, for callers on several threads
    that share one client.  A thread switch can happen between any two
    statements, and a thread inside [time.sleep] lets the others run; the
    code takes no lock.  A statement takes no time of its own: time
    passes by [Tick] between statements, and a sleeper goes on once the
    clock has reached its wake-up instant. *)
Module threads.

(** Where a thread is in [_rate_limit], with the locals it holds. *)
Inductive Pc :=
| Idle                                   (* outside _rate_limit *)
| L55 (now : Q)                          (* line 54 done *)
| L56 (now elapsed : Q)                  (* line 55 done *)
| L57 (now elapsed min_interval : Q)     (* line 56 done *)
| Sleeping (wake : Q)                    (* in the time.sleep of line 58 *)
| L59.                                   (* lines 57-58 done *)

Inductive Action :=
| Run (i : nat)        (* thread i executes its next statement *)
| Tick (d : Q).        (* d seconds go by *)

Definition Config : Type := list Pc * State.

(** The next statement of a thread; [None] when it cannot go on yet. *)
Definition statement (self : APIClient.t) (pc : Pc) (s : State)
  : option (Pc * State) :=
  match pc with
  | Idle => Some (L55 (clock s), s)
  | L55 now => Some (L56 now (now - _last_call s), s)
  | L56 now elapsed =>
      if (APIClient.requests_per_second self =? 0)%Z
      then Some (Idle, s)    (* ZeroDivisionError ends the call *)
      else Some (L57 now elapsed
                     (1 / inject_Z (APIClient.requests_per_second self)), s)
  | L57 now elapsed min_interval =>
      if Qlt_bool elapsed min_interval
      then Some (Sleeping (clock s + (min_interval - elapsed)),
                 mkState (clock s) (tick s) (sent s) (_last_call s)
                         (trace s ++ [Slept (min_interval - elapsed)]))
      else Some (L59, s)
  | Sleeping wake =>
      if Qle_bool wake (clock s) then Some (L59, s) else None
  | L59 =>
      Some (Idle, mkState (clock s) (tick s) (sent s) (clock s)
                          (trace s ++ [Stamped (clock s)]))
  end.

Fixpoint set_thread (i : nat) (pc : Pc) (ths : list Pc) : list Pc :=
  match ths, i with
  | [], _ => []
  | _ :: t, O => pc :: t
  | p :: t, S i' => p :: set_thread i' pc t
  end.

Definition is_idle (pc : Pc) : bool :=
  match pc with
  | Idle => true
  | _ => false
  end.

(** No thread other than [i] is inside [_rate_limit]. *)
Fixpoint others_idle (i : nat) (ths : list Pc) : bool :=
  match ths, i with
  | [], _ => true
  | _ :: t, O => forallb is_idle t
  | p :: t, S i' => andb (is_idle p) (others_idle i' t)
  end.

(** One action of a schedule.  With [exclusive] set, a thread runs only
    while no other thread is inside [_rate_limit], as if the method were
    guarded by a lock. *)
Definition step (exclusive : bool) (self : APIClient.t) (a : Action)
    (cfg : Config) : option Config :=
  let (ths, s) := cfg in
  match a with
  | Tick d =>
      if Qlt_bool d 0 then None
      else Some (ths, mkState (clock s + d) (tick s) (sent s) (_last_call s)
                              (trace s))
  | Run i =>
      if andb exclusive (negb (others_idle i ths)) then None
      else
        match nth_error ths i with
        | None => None
        | Some pc =>
            match statement self pc s with
            | None => None
            | Some (pc', s') => Some (set_thread i pc' ths, s')
            end
        end
  end.

Fixpoint run (exclusive : bool) (self : APIClient.t) (sched : list Action)
    (cfg : Config) : option Config :=
  match sched with
  | [] => Some cfg
  | a :: sched' =>
      match step exclusive self a cfg with
      | None => None
      | Some cfg' => run exclusive self sched' cfg'
      end
  end.

(** What a thread inside [_rate_limit] knows, as long as no other thread
    moved the stamp under it. *)
Definition ok (self : APIClient.t) (s : State) (pc : Pc) : Prop :=
  match pc with
  | Idle => True
  | L55 now => now <= clock s
  | L56 now elapsed => now <= clock s /\ elapsed == now - _last_call s
  | L57 now elapsed mi =>
      now <= clock s /\ elapsed == now - _last_call s /\ mi == min_interval self
  | Sleeping wake => _last_call s + min_interval self <= wake
  | L59 => _last_call s + min_interval self <= clock s
  end.

End threads.

(** Two callers that enter [_rate_limit] together: each reads the clock
    and the stamp before the other has written it. *)
Definition overlapping : list threads.Action :=
  [threads.Run 0; threads.Run 0; threads.Run 0; threads.Run 0;
   threads.Run 1; threads.Run 1; threads.Run 1; threads.Run 1;
   threads.Run 0; threads.Run 1].

(** Two callers, the second entering after the first has left; the
    second finds the fresh stamp, sleeps, and goes on once a fifth of a
    second has gone by. *)
Definition one_by_one : list threads.Action :=
  [threads.Run 0; threads.Run 0; threads.Run 0; threads.Run 0; threads.Run 0;
   threads.Run 1; threads.Run 1; threads.Run 1; threads.Run 1;
   threads.Tick (1 # 5); threads.Run 1; threads.Run 1].

(** The schedule of one caller alone: its statements in order, the time
    of its sleep (if it sleeps) going by in between. *)
Definition alone (self : APIClient.t) (s : State) : list threads.Action :=
  let elapsed := clock s - _last_call s in
  if Qlt_bool elapsed (min_interval self)
  then [threads.Run 0; threads.Run 0; threads.Run 0; threads.Run 0;
        threads.Tick (min_interval self - elapsed);
        threads.Run 0; threads.Run 0]
  else [threads.Run 0; threads.Run 0; threads.Run 0; threads.Run 0;
        threads.Run 0].

(** ** Reading strings and keyword arguments *)

(** The string ends in a slash. *)
Fixpoint ends_slash (s : string) : bool :=
  match s with
  | EmptyString => false
  | String c EmptyString => Ascii.eqb c "/"%char
  | String _ s' => ends_slash s'
  end.

(** [n] slashes. *)
Fixpoint slashes (n : nat) : string :=
  match n with
  | O => EmptyString
  | S n' => String "/"%char (slashes n')
  end.



(** ** The Gemini client: [gemini-client.py]

    [class GeminiClient(APIClient)].  Three things are outside the code
    and are taken as given: [payload], how a Python dictionary the
    subclass builds is written in the flat dictionaries the verbs of
    [APIClient] take here; [structure], the Python value a decoded
    response is; and [loads], [json.loads].  [os.environ] is an argument
    of the constructor. *)
Module GeminiClient.

(** Python values the subclass builds and reads. *)
#[local] Unset Elimination Schemes.
Inductive PyObj :=
| PNone
| PBool (b : bool)
| PNum (q : Q)
| PStr (s : string)
| PList (l : list PyObj)
| PDict (d : list (string * PyObj)).
#[local] Set Elimination Schemes.

(** What can be raised in the subclass, next to what the base class
    raises. *)
Inductive Raised :=
| KeyError (key : string)
| IndexError
| TypeError
| AttributeError
| JSONLoadsError                  (* json.JSONDecodeError *)
| Propagated (e : Exception).

Inductive GResult (A : Type) :=
| GOk (a : A)
| GRaise (e : Raised).
Arguments GOk {A} a.
Arguments GRaise {A} e.

Definition G (A : Type) : Type := Env -> State -> GResult A * State.

Definition gret {A} (a : A) : G A := fun _ s => (GOk a, s).

Definition graise {A} (e : Raised) : G A := fun _ s => (GRaise e, s).

Definition gbind {A B} (m : G A) (k : A -> G B) : G B :=
  fun env s =>
    match m env s with
    | (GOk a, s') => k a env s'
    | (GRaise e, s') => (GRaise e, s')
    end.

(** A call into the base class. *)
Definition lift {A} (m : M A) : G A :=
  fun env s =>
    match m env s with
    | (Ok a, s') => (GOk a, s')
    | (Raise e, s') => (GRaise (Propagated e), s')
    end.

Definition GEMINI_BASE : string := "https://generativelanguage.googleapis.com".

Definition GEMINI_MODEL : string := "gemini-2.5-flash".

(** [os.environ]. *)
Definition Environ := list (string * string).

Fixpoint environ_get (k : string) (environ : Environ) : option string :=
  match environ with
  | [] => None
  | (k', v) :: rest => if String.eqb k k' then Some v else environ_get k rest
  end.

(** Python's [str.lower] on ASCII letters. *)
Definition lower_ascii (c : ascii) : ascii :=
  let n := nat_of_ascii c in
  if andb (65 <=? n)%nat (n <=? 90)%nat then ascii_of_nat (n + 32) else c.

Fixpoint lower (s : string) : string :=
  match s with
  | EmptyString => EmptyString
  | String c s' => String (lower_ascii c) (lower s')
  end.

(** [session.headers.get(key, default)]: the names of headers are
    compared without regard to case. *)
Fixpoint headers_get (headers : list (string * string)) (key default : string)
  : string :=
  match headers with
  | [] => default
  | (k, v) :: rest =>
      if String.eqb (lower k) (lower key) then v else headers_get rest key default
  end.

(** [str.replace(old, new)] for a non-empty [old]: every occurrence, from
    the left, occurrences not overlapping.  [skip] counts the characters
    of an occurrence still to be passed over. *)
Fixpoint replace_from (old new : string) (skip : nat) (s : string) : string :=
  match s with
  | EmptyString => EmptyString
  | String c s' =>
      match skip with
      | S k => replace_from old new k s'
      | O =>
          if String.prefix old s
          then (new ++ replace_from old new (String.length old - 1) s')%string
          else String c (replace_from old new 0 s')
      end
  end.

(** With an empty [old], [new] goes before every character and at the
    end. *)
Fixpoint intersperse (new s : string) : string :=
  match s with
  | EmptyString => new
  | String c s' => (new ++ String c (intersperse new s'))%string
  end.

Definition replace (old new s : string) : string :=
  match old with
  | EmptyString => intersperse new s
  | _ => replace_from old new 0 s
  end.

(** [old] occurs in the string. *)
Fixpoint occurs (old s : string) : bool :=
  orb (String.prefix old s)
      match s with
      | EmptyString => false
      | String _ s' => occurs old s'
      end.

(** Whitespace for [str.strip()], among the ASCII characters. *)
Definition is_space (c : ascii) : bool :=
  let n := nat_of_ascii c in
  orb (andb (9 <=? n)%nat (n <=? 13)%nat) (andb (28 <=? n)%nat (n <=? 32)%nat).

Fixpoint lstrip (s : string) : string :=
  match s with
  | EmptyString => EmptyString
  | String c s' => if is_space c then lstrip s' else s
  end.

Fixpoint rstrip (s : string) : string :=
  match s with
  | EmptyString => EmptyString
  | String c s' =>
      match rstrip s' with
      | EmptyString => if is_space c then EmptyString else String c EmptyString
      | t => String c t
      end
  end.

Definition strip (s : string) : string := rstrip (lstrip s).

Fixpoint drop_prefix (p s : string) : option string :=
  match p, s with
  | EmptyString, _ => Some s
  | String a p', String b s' => if Ascii.eqb a b then drop_prefix p' s' else None
  | String _ _, EmptyString => None
  end.

Definition removeprefix (p s : string) : string :=
  match drop_prefix p s with
  | Some rest => rest
  | None => s
  end.

Fixpoint removesuffix (p s : string) : string :=
  match s with
  | EmptyString => EmptyString
  | String c s' => if String.eqb s p then EmptyString else String c (removesuffix p s')
  end.

(** [d[key] = value] on a dictionary. *)
Fixpoint dict_set (key : string) (value : PyObj) (d : list (string * PyObj))
  : list (string * PyObj) :=
  match d with
  | [] => [(key, value)]
  | (k, v) :: rest =>
      if String.eqb key k then (k, value) :: rest else (k, v) :: dict_set key value rest
  end.

Fixpoint dict_get (key : string) (d : list (string * PyObj)) : option PyObj :=
  match d with
  | [] => None
  | (k, v) :: rest => if String.eqb key k then Some v else dict_get key rest
  end.

(** [o[key]] for a string key. *)
Definition getitem (o : PyObj) (key : string) : GResult PyObj :=
  match o with
  | PDict d =>
      match dict_get key d with
      | Some v => GOk v
      | None => GRaise (KeyError key)
      end
  | _ => GRaise TypeError
  end.

(** [o[0]]. *)
Definition getitem0 (o : PyObj) : GResult PyObj :=
  match o with
  | PList (x :: _) => GOk x
  | PList [] => GRaise IndexError
  | PStr (String c _) => GOk (PStr (String c EmptyString))
  | PStr EmptyString => GRaise IndexError
  | PDict _ => GRaise (KeyError "0")
  | _ => GRaise TypeError
  end.

Definition pure {A} (r : GResult A) : G A := fun _ s => (r, s).

Record t := mk {
  base : APIClient.t;
  model : string
}.

(** [api_key or os.environ["GEMINI_API_KEY"]]. *)
Definition resolve_key (environ : Environ) (api_key : option string)
  : GResult string :=
  match api_key with
  | Some (String c k) => GOk (String c k)
  | _ =>
      match environ_get "GEMINI_API_KEY" environ with
      | Some v => GOk v
      | None => GRaise (KeyError "GEMINI_API_KEY")
      end
  end.

(** [GeminiClient.__init__]; [timeout] keeps the default of the base
    class, 30. *)
Definition __init__ (environ : Environ) (api_key : option string)
    (requests_per_second : Z) : G t :=
  gbind (pure (resolve_key environ api_key)) (fun key =>
  gbind (lift (APIClient.__init__ GEMINI_BASE (Some key) requests_per_second
                 30 5 1)) (fun self =>
  gret (mk self GEMINI_MODEL))).

Definition _api_key (self : t) : string :=
  replace "Bearer " ""
    (headers_get (requests.headers (APIClient.session (base self)))
                 "Authorization" "").

Section Outside.

Variable payload : PyObj -> Dict.
Variable structure : Json -> PyObj.
Variable loads : string -> option PyObj.

(** [self.post(endpoint, **kwargs)]: [post] takes [endpoint], [data] and
    [json]; a keyword argument of any other name is a [TypeError], raised
    before the body of [post] is entered. *)
Definition call_post (self : APIClient.t) (endpoint : string)
    (kwargs : list (string * PyObj)) : G PyValue :=
  if forallb (fun kv => existsb (String.eqb (fst kv)) ["data"; "json"]) kwargs
  then lift (APIClient.post self endpoint
               (option_map payload (dict_get "data" kwargs))
               (option_map payload (dict_get "json" kwargs)))
  else graise TypeError.

(** The Python value a verb returned. *)
Definition as_obj (v : PyValue) : PyObj :=
  match v with
  | PyNone => PNone
  | PyJson j => structure j
  end.

Definition generate (self : t) (prompt : string) (system : option string)
  : G PyObj :=
  let contents :=
    PList [PDict [("role", PStr "user");
                  ("parts", PList [PDict [("text", PStr prompt)]])]] in
  let body := [("contents", contents)] in
  let body :=
    match system with
    | Some (String c sys) =>
        dict_set "systemInstruction"
          (PDict [("parts", PList [PDict [("text", PStr (String c sys))]])]) body
    | _ => body
    end in
  let endpoint := ("/v1beta/models/" ++ model self ++ ":generateContent")%string in
  let params := PDict [("key", PStr (_api_key self))] in
  gbind (call_post (base self) endpoint [("json", PDict body); ("params", params)])
    (fun response =>
  gbind (pure (getitem (as_obj response) "candidates")) (fun candidates =>
  gbind (pure (getitem0 candidates)) (fun candidate =>
  gbind (pure (getitem candidate "content")) (fun content =>
  gbind (pure (getitem content "parts")) (fun parts =>
  gbind (pure (getitem0 parts)) (fun part =>
  pure (getitem part "text"))))))).

Definition newline : string := String (ascii_of_nat 10) EmptyString.

(** The cleaning of line 57. *)
Definition clean (raw : string) : string :=
  strip (removesuffix "```" (removeprefix "```json" (strip raw))).

Definition generate_json (self : t) (prompt : string) (system : option string)
  : G PyObj :=
  let json_prompt :=
    (prompt ++ newline ++ newline
     ++ "Respond with valid JSON only. No markdown fences.")%string in
  gbind (generate self json_prompt system) (fun raw =>
  match raw with
  | PStr r =>
      match loads (clean r) with
      | Some v => gret v
      | None => graise JSONLoadsError
      end
  | _ => graise AttributeError
  end).

End Outside.

End GeminiClient.

(** Every character of the string is whitespace. *)
Fixpoint all_space (s : string) : bool :=
  match s with
  | EmptyString => true
  | String c s' => andb (GeminiClient.is_space c) (all_space s')
  end.

(** * Properties *)

(** ** Comparisons and lists of events *)

Lemma Qlt_bool_iff (x y : Q) : Qlt_bool x y = true <-> x < y.
Proof.
  unfold Qlt_bool. rewrite negb_true_iff. split; intro H.
  - apply Qnot_le_lt. intro C. apply Qle_bool_iff in C. congruence.
  - destruct (Qle_bool y x) eqn:E; [|reflexivity].
    apply Qle_bool_iff in E. exfalso. apply (Qlt_not_le _ _ H E).
Qed.

Lemma Qlt_bool_false (x y : Q) : Qlt_bool x y = false <-> y <= x.
Proof.
  unfold Qlt_bool. rewrite negb_false_iff. apply Qle_bool_iff.
Qed.

Lemma Qle_bool_false (x y : Q) : Qle_bool x y = false <-> y < x.
Proof.
  rewrite <- Qlt_bool_iff. unfold Qlt_bool. rewrite negb_true_iff. tauto.
Qed.

Lemma bind_ok {A B} (m : M A) (k : A -> M B) (env : Env) (s s' : State) (a : A) :
  m env s = (Ok a, s') -> bind m k env s = k a env s'.
Proof. intro E. unfold bind. rewrite E. reflexivity. Qed.

Lemma bind_raise {A B} (m : M A) (k : A -> M B) (env : Env) (s s' : State)
    (x : Exception) :
  m env s = (Raise x, s') -> bind m k env s = (Raise x, s').
Proof. intro E. unfold bind. rewrite E. reflexivity. Qed.

Lemma stamps_app (l1 l2 : list Event) : stamps (l1 ++ l2) = stamps l1 ++ stamps l2.
Proof.
  induction l1 as [|e l1 IH]; [reflexivity|].
  destruct e; simpl; rewrite IH; reflexivity.
Qed.

Lemma starts_app (l1 l2 : list Event) : starts (l1 ++ l2) = starts l1 ++ starts l2.
Proof.
  induction l1 as [|e l1 IH]; [reflexivity|].
  destruct e; simpl; rewrite IH; reflexivity.
Qed.

Lemma sleeps_app (l1 l2 : list Event) : sleeps (l1 ++ l2) = sleeps l1 ++ sleeps l2.
Proof.
  induction l1 as [|e l1 IH]; [reflexivity|].
  destruct e; simpl; rewrite IH; reflexivity.
Qed.

Lemma min_interval_pos (self : APIClient.t) :
  (0 < APIClient.requests_per_second self)%Z -> 0 < min_interval self.
Proof.
  intro H. unfold min_interval.
  apply Qlt_shift_div_l.
  - replace 0 with (inject_Z 0) by reflexivity. rewrite <- Zlt_Qlt. exact H.
  - rewrite Qmult_0_l. reflexivity.
Qed.

(** ** The frame of the library calls *)

Lemma frame_refl (s : State) : frame s s.
Proof.
  unfold frame. split; [apply Qle_refl|].
  split; [reflexivity|]. split; [reflexivity|]. apply Nat.le_refl.
Qed.

Lemma frame_trans (s1 s2 s3 : State) : frame s1 s2 -> frame s2 s3 -> frame s1 s3.
Proof.
  unfold frame. intros (C1 & L1 & T1 & N1) (C2 & L2 & T2 & N2).
  repeat split.
  - eapply Qle_trans; eassumption.
  - congruence.
  - congruence.
  - lia.
Qed.

Lemma frame_time_sleep (secs : Q) (env : Env) (s : State) :
  causal env -> frame s (after (time.sleep secs) env s).
Proof.
  intro Hc. unfold after, time.sleep.
  destruct (Qlt_bool secs 0) eqn:E; simpl; [apply frame_refl|].
  apply Qlt_bool_false in E. unfold frame; simpl. repeat split.
  - specialize (Hc (tick s)). lra.
  - rewrite stamps_app. simpl. apply app_nil_r.
  - apply Nat.le_refl.
Qed.

Lemma frame_transport_send (env : Env) (s : State) :
  causal env -> frame s (after transport_send env s).
Proof.
  intro Hc. unfold after, transport_send, frame; simpl. repeat split.
  - specialize (Hc (tick s)). lra.
  - rewrite stamps_app. simpl. apply app_nil_r.
  - lia.
Qed.

Lemma frame_retry_sleep (r : urllib3.Retry) (env : Env) (s : State) :
  causal env -> frame s (after (urllib3.sleep r) env s).
Proof.
  intro Hc. unfold urllib3.sleep, urllib3._sleep_backoff.
  destruct (Qle_bool (urllib3.get_backoff_time r) 0).
  - apply frame_refl.
  - apply frame_time_sleep; assumption.
Qed.

(** The retry engine's sleep never raises: it only sleeps a positive time. *)
Lemma retry_sleep_ok (r : urllib3.Retry) (env : Env) (s : State) :
  urllib3.sleep r env s = (Ok tt, after (urllib3.sleep r) env s) /\
  sent (after (urllib3.sleep r) env s) = sent s.
Proof.
  unfold after, urllib3.sleep, urllib3._sleep_backoff.
  destruct (Qle_bool (urllib3.get_backoff_time r) 0) eqn:E.
  - split; reflexivity.
  - apply Qle_bool_false in E. unfold time.sleep.
    assert (F : Qlt_bool (urllib3.get_backoff_time r) 0 = false).
    { apply Qlt_bool_false. apply Qlt_le_weak. exact E. }
    rewrite F. split; reflexivity.
Qed.

Lemma frame_urlopen (fuel : nat) :
  forall (r : urllib3.Retry) (method url : string) (env : Env) (s : State),
    causal env -> frame s (after (urllib3.urlopen fuel r method url) env s).
Proof.
  induction fuel as [|fuel IH]; intros r method url env s Hc.
  - apply frame_refl.
  - pose proof (frame_transport_send env s Hc) as F1.
    unfold after in *. simpl. unfold bind at 1.
    unfold transport_send at 1. unfold transport_send in F1. simpl in F1.
    set (s1 := mkState _ _ _ _ _) in *.
    assert (Step : forall r',
      frame s (snd ((urllib3.sleep r' ;; urllib3.urlopen fuel r' method url) env s1))).
    { intro r'. unfold bind.
      destruct (retry_sleep_ok r' env s1) as [E _]. rewrite E.
      eapply frame_trans; [exact F1|].
      eapply frame_trans; [apply frame_retry_sleep; exact Hc|].
      apply IH; exact Hc. }
    destruct (reply env (sent s)) as [resp|e].
    + destruct (urllib3.is_retry r method (status_code resp)); [|exact F1].
      destruct (urllib3.increment r method (Responded resp)) as [r'|x].
      * apply Step.
      * destruct (urllib3.raise_on_status r); exact F1.
    + destruct (urllib3.increment r method (Failed e)) as [r'|x].
      * apply Step.
      * exact F1.
Qed.

Lemma frame_request (sess : requests.Session) (method url : string)
    (kwargs : Kwargs) (env : Env) (s : State) :
  causal env -> frame s (after (requests.request sess method url kwargs) env s).
Proof.
  intro Hc. unfold requests.request, requests.send, after.
  pose proof (frame_urlopen (requests.depth (requests.max_retries (requests.adapter sess)))
                (requests.max_retries (requests.adapter sess)) (upper method) url env s Hc) as F.
  unfold after in F.
  destruct (urllib3.urlopen _ _ _ _ env s) as [[resp|x] s']; simpl in *; [exact F|].
  destruct x as [| | |[r|e]|e|e|st|st|]; simpl; exact F.
Qed.

(** ** The rate limiter *)

(** Runs [_rate_limit] symbolically and leaves its two cases: [E] says
    whether the elapsed time is short of the minimum interval, and in the
    first case the sleep is already known not to raise. *)
Ltac run_rate_limit Hpos E :=
  unfold APIClient._rate_limit, bind, time.time, APIClient.get_last_call,
    APIClient.truediv, APIClient.set_last_call, raise, ret;
  rewrite (proj2 (Z.eqb_neq _ 0) (Z.neq_sym _ _ (Z.lt_neq _ _ Hpos)));
  cbn [clock tick sent _last_call trace];
  match goal with
  | |- context [1 / inject_Z (APIClient.requests_per_second ?c)] =>
      change (1 / inject_Z (APIClient.requests_per_second c)) with (min_interval c)
  end;
  match goal with
  | |- context [Qlt_bool ?e (min_interval ?c)] =>
      destruct (Qlt_bool e (min_interval c)) eqn:E;
      [ apply Qlt_bool_iff in E; unfold time.sleep;
        cbn [clock tick sent _last_call trace];
        rewrite (proj2 (Qlt_bool_false (min_interval c - e) 0));
        [ cbn [clock tick sent _last_call trace] | lra ]
      | apply Qlt_bool_false in E ]
  end.

(** What the rest of the development needs of one pass through the rate
    limiter: it stamps once, at the instant it returns, at least
    [min_interval] after the previous stamp, and sends nothing. *)
Lemma rate_limit_admits (self : APIClient.t) (env : Env) (s : State) :
  (0 < APIClient.requests_per_second self)%Z ->
  causal env ->
  exists s',
    APIClient._rate_limit self env s = (Ok tt, s') /\
    _last_call s' = clock s' /\
    stamps (trace s') = stamps (trace s) ++ [clock s'] /\
    starts (trace s') = starts (trace s) /\
    sent s' = sent s /\
    _last_call s + min_interval self <= clock s' /\
    clock s <= clock s'.
Proof.
  intros Hpos Hc.
  pose proof (Hc (tick s)) as L0. pose proof (Hc (S (tick s))) as L1.
  pose proof (Hc (S (S (tick s)))) as L2.
  run_rate_limit Hpos E.
  - eexists. split; [reflexivity|]. cbn [clock tick sent _last_call trace].
    split; [reflexivity|].
    split; [rewrite !stamps_app; simpl; rewrite app_nil_r; reflexivity|].
    split; [rewrite !starts_app; simpl; rewrite !app_nil_r; reflexivity|].
    split; [reflexivity|]. split; lra.
  - eexists. split; [reflexivity|]. cbn [clock tick sent _last_call trace].
    split; [reflexivity|].
    split; [rewrite !stamps_app; reflexivity|].
    split; [rewrite !starts_app; simpl; rewrite !app_nil_r; reflexivity|].
    split; [reflexivity|]. split; lra.
Qed.

(** C5. With a positive rate the rate limiter never raises and does
    exactly this: it reads the clock, takes [elapsed = now - _last_call];
    when [elapsed < min_interval] it sleeps [min_interval - elapsed] (one
    sleep, of that length) and otherwise does not sleep; then it stores a
    fresh reading of the clock in [_last_call], which after a sleep is
    later than the reading taken before it. *)
Theorem rate_limit_steps (self : APIClient.t) (env : Env) (s : State) :
  (0 < APIClient.requests_per_second self)%Z ->
  let now := clock s + lag env (tick s) in
  let elapsed := now - _last_call s in
  exists s',
    APIClient._rate_limit self env s = (Ok tt, s') /\
    _last_call s' = clock s' /\
    sent s' = sent s /\
    (elapsed < min_interval self ->
       trace s' = trace s ++ [Slept (min_interval self - elapsed); Stamped (clock s')] /\
       clock s' = now + (min_interval self - elapsed)
                  + lag env (S (tick s)) + lag env (S (S (tick s))) /\
       (causal env -> now < _last_call s')) /\
    (min_interval self <= elapsed ->
       trace s' = trace s ++ [Stamped (clock s')] /\
       clock s' = now + lag env (S (tick s))).
Proof.
  intros Hpos now elapsed.
  run_rate_limit Hpos E; fold now in E |- *; fold elapsed in E |- *.
  - eexists. split; [reflexivity|]. cbn [clock tick sent _last_call trace].
    split; [reflexivity|]. split; [reflexivity|]. split.
    + intros _. split; [rewrite <- app_assoc; reflexivity|].
      split; [reflexivity|].
      intro Hc. pose proof (Hc (S (tick s))). pose proof (Hc (S (S (tick s)))). lra.
    + intro C. exfalso. lra.
  - eexists. split; [reflexivity|]. cbn [clock tick sent _last_call trace].
    split; [reflexivity|]. split; [reflexivity|]. split.
    + intro C. exfalso. lra.
    + intros _. split; reflexivity.
Qed.

Lemma rate_limit_steps_witness :
  (0 < APIClient.requests_per_second example_client)%Z /\
  exists s',
    APIClient._rate_limit example_client (steady 200)
      (mkState 1000 0 0 (9999 # 10) []) = (Ok tt, s') /\
    _last_call s' = clock s'.
Proof.
  assert (H : (0 < APIClient.requests_per_second example_client)%Z) by reflexivity.
  split; [exact H|].
  destruct (rate_limit_steps example_client (steady 200)
              (mkState 1000 0 0 (9999 # 10) []) H) as (s' & E & L & _).
  exists s'. split; assumption.
Defined.

Lemma min_interval_le_1 (self : APIClient.t) :
  (0 < APIClient.requests_per_second self)%Z -> min_interval self <= 1.
Proof.
  intro H. unfold min_interval.
  assert (P : 1 <= inject_Z (APIClient.requests_per_second self)).
  { replace 1 with (inject_Z 1) by reflexivity. rewrite <- Zle_Qle. lia. }
  apply Qle_shift_div_r; lra.
Qed.

(** C10. On a freshly constructed client ([_last_call = 0]) with a rate
    of at least one request per second, at any clock reading of one second
    past the epoch or more, the first pass through the rate limiter finds
    [elapsed >= min_interval], does not sleep, and returns after the two
    clock reads. *)
Theorem first_request_not_delayed
    (base_url : string) (api_key : option string)
    (requests_per_second timeout max_retries : Z) (backoff_factor : Q)
    (env : Env) (s0 : State) :
  (0 < requests_per_second)%Z ->
  causal env ->
  1 <= clock s0 ->
  exists self s1 s2,
    APIClient.__init__ base_url api_key requests_per_second timeout
                       max_retries backoff_factor env s0 = (Ok self, s1) /\
    _last_call s1 = 0 /\
    min_interval self <= (clock s1 + lag env (tick s1)) - _last_call s1 /\
    APIClient._rate_limit self env s1 = (Ok tt, s2) /\
    trace s2 = trace s0 ++ [Stamped (clock s2)] /\
    sleeps (trace s2) = sleeps (trace s0) /\
    clock s2 = clock s0 + lag env (tick s0) + lag env (S (tick s0)).
Proof.
  intros Hpos Hc Hclock.
  set (self := APIClient.new base_url api_key requests_per_second timeout
                 max_retries backoff_factor).
  assert (Hpos' : (0 < APIClient.requests_per_second self)%Z) by exact Hpos.
  pose proof (min_interval_le_1 self Hpos') as Hmi.
  pose proof (Hc (tick s0)) as L0.
  set (s1 := mkState (clock s0) (tick s0) (sent s0) 0 (trace s0)).
  exists self, s1.
  unfold APIClient.__init__. fold self. fold s1.
  assert (Hel : min_interval self <= clock s1 + lag env (tick s1) - _last_call s1).
  { subst s1. cbn [clock tick _last_call]. lra. }
  revert Hel. run_rate_limit Hpos' E; intro Hel.
  - exfalso. subst s1. cbn [clock tick _last_call] in *. lra.
  - eexists. split; [reflexivity|]. split; [reflexivity|].
    split; [exact Hel|]. split; [reflexivity|].
    subst s1. cbn [clock tick sent _last_call trace].
    split; [reflexivity|]. split; [|reflexivity].
    rewrite sleeps_app. simpl. apply app_nil_r.
Qed.

Lemma first_request_not_delayed_witness :
  (0 < 5)%Z /\ causal (steady 200) /\ 1 <= clock (idle 1000) /\
  exists self s1 s2,
    APIClient.__init__ "https://jsonplaceholder.typicode.com" None 5 30 4 1
                       (steady 200) (idle 1000) = (Ok self, s1) /\
    APIClient._rate_limit self (steady 200) s1 = (Ok tt, s2) /\
    sleeps (trace s2) = [].
Proof.
  assert (H1 : (0 < 5)%Z) by reflexivity.
  assert (H2 : causal (steady 200)) by (intro k; simpl; apply Qle_refl).
  assert (H3 : 1 <= clock (idle 1000)) by (simpl; discriminate).
  repeat split; try assumption.
  destruct (first_request_not_delayed "https://jsonplaceholder.typicode.com" None
              5 30 4 1 (steady 200) (idle 1000) H1 H2 H3)
    as (self & s1 & s2 & A & _ & _ & B & _ & C & _).
  exists self, s1, s2. repeat split; assumption.
Defined.

(** ** One call, and calls in sequence *)

(** What a verb makes of the result of [_request]: an exception goes
    through; a response with an error status becomes an [HTTPError];
    otherwise [delete] returns [None] and the others the decoded body. *)
Lemma perform_result (self : APIClient.t) (c : Call) (env : Env) (s : State) :
  perform self c env s =
    match APIClient._request self (method_of c) (endpoint_of c) (kwargs_of c) env s with
    | (Raise x, s') => (Raise x, s')
    | (Ok r, s') =>
        if andb (400 <=? status_code r)%Z (status_code r <? 600)%Z
        then (Raise (HTTPError (status_code r)), s')
        else
          match c with
          | Delete _ => (Ok PyNone, s')
          | _ =>
              match json_body r with
              | Some j => (Ok (PyJson j), s')
              | None => (Raise JSONDecodeError, s')
              end
          end
    end.
Proof.
  destruct c as [e p|e d j|e d j|e];
    unfold perform, APIClient.get, APIClient.post, APIClient.put,
      APIClient.delete, method_of, endpoint_of, kwargs_of;
    unfold bind at 1;
    destruct (APIClient._request self _ e _ env s) as [[r|x] s']; try reflexivity;
    unfold bind, requests.raise_for_status, requests.json, raise, ret;
    destruct (andb _ _); try reflexivity;
    destruct (json_body r); reflexivity.
Qed.

(** The verbs change the state only through [_request]. *)
Lemma perform_after (self : APIClient.t) (c : Call) (env : Env) (s : State) :
  after (perform self c) env s =
  after (APIClient._request self (method_of c) (endpoint_of c) (kwargs_of c)) env s.
Proof.
  unfold after. rewrite perform_result.
  destruct (APIClient._request self _ _ _ env s) as [[r|x] s']; [|reflexivity].
  destruct (andb _ _); [reflexivity|].
  destruct c; try reflexivity; destruct (json_body r); reflexivity.
Qed.

(** One logical call stamps exactly once, at least [min_interval] after
    the previous stamp, after the call began and before it ended. *)
Lemma request_admits (self : APIClient.t) (method endpoint : string)
    (kwargs : Kwargs) (env : Env) (s : State) :
  (0 < APIClient.requests_per_second self)%Z ->
  causal env ->
  let s' := after (APIClient._request self method endpoint kwargs) env s in
  stamps (trace s') = stamps (trace s) ++ [_last_call s'] /\
  _last_call s + min_interval self <= _last_call s' /\
  clock s <= _last_call s' /\
  _last_call s' <= clock s'.
Proof.
  intros Hpos Hc s'. subst s'.
  destruct (rate_limit_admits self env s Hpos Hc)
    as (s1 & E & L & St & _ & _ & Sp & Mono).
  unfold after, APIClient._request. rewrite (bind_ok _ _ _ _ _ _ E).
  pose proof (frame_request (APIClient.session self) (upper method)
                (APIClient.base_url self ++ endpoint)%string
                (APIClient.setdefault "timeout" (KwInt (APIClient.timeout self)) kwargs)
                env s1 Hc) as F.
  unfold after in F. destruct F as (C & L' & T & _).
  rewrite L', T, St, L. repeat split; assumption.
Qed.

Lemma run_calls_spaced (self : APIClient.t) (cs : list Call) (env : Env) :
  (0 < APIClient.requests_per_second self)%Z ->
  causal env ->
  forall s,
  exists ts,
    stamps (trace (run_calls self cs env s)) = stamps (trace s) ++ ts /\
    List.length ts = List.length cs /\
    spaced (min_interval self) (_last_call s :: ts) /\
    clock s <= clock (run_calls self cs env s) /\
    match ts with
    | [] => True
    | t1 :: _ =>
        clock s <= t1 /\
        t1 + (inject_Z (Z.of_nat (List.length cs)) - 1) * min_interval self
          <= clock (run_calls self cs env s)
    end.
Proof.
  intros Hpos Hc. induction cs as [|c cs IH]; intro s.
  - exists []. simpl. rewrite app_nil_r. repeat split; try reflexivity. apply Qle_refl.
  - pose proof (request_admits self (method_of c) (endpoint_of c) (kwargs_of c) env s Hpos Hc) as R.
    cbv zeta in R. rewrite <- perform_after in R. destruct R as (St & Sp & Lo & Hi).
    cbn [run_calls]. set (s1 := after (perform self c) env s) in *.
    destruct (IH s1) as (ts & St' & Len & Spd & Mono & Tail).
    exists (_last_call s1 :: ts).
    split; [rewrite St', St, <- app_assoc; reflexivity|].
    split; [simpl; rewrite Len; reflexivity|].
    split; [split; assumption|].
    split; [lra|].
    split; [exact Lo|].
    assert (N : inject_Z (Z.of_nat (List.length (c :: cs)))
                == inject_Z (Z.of_nat (List.length cs)) + 1).
    { cbn [List.length]. rewrite Nat2Z.inj_succ. unfold Z.succ.
      rewrite inject_Z_plus. reflexivity. }
    rewrite N.
    destruct ts as [|t2 ts'].
    + destruct cs; [|discriminate Len]. simpl. change (inject_Z 0) with 0.
      assert (X : (0 + 1 - 1) * min_interval self == 0) by ring.
      rewrite X. lra.
    + destruct Tail as [_ T2]. destruct Spd as [S12 _]. 
      assert (forall a b c d : Q, a + b <= c -> c + (d - 1) * b <= clock (run_calls self cs env s1)
                 -> a + (d + 1 - 1) * b <= clock (run_calls self cs env s1)) as Arith.
      { intros a b c0 d H1 H2. 
        assert (X : (d + 1 - 1) * b == (d - 1) * b + b) by ring.
        rewrite X. lra. }
      eapply Arith; eassumption.
Qed.

(** C6. For every positive rate and every sequence of calls made one
    after the other on one client: every call stamps the end of its
    rate-limit wait exactly once; each stamp is at least
    [1 / requests_per_second] after the one before, the first of them after
    whatever stamp the client held, however long ago that was; and the
    wall time the N calls take is at least [(N - 1) / requests_per_second]. *)
Theorem sequential_calls_spaced (self : APIClient.t) (cs : list Call)
    (env : Env) (s : State) :
  (0 < APIClient.requests_per_second self)%Z ->
  causal env ->
  let s' := run_calls self cs env s in
  exists ts,
    stamps (trace s') = stamps (trace s) ++ ts /\
    List.length ts = List.length cs /\
    spaced (1 / inject_Z (APIClient.requests_per_second self)) (_last_call s :: ts) /\
    (inject_Z (Z.of_nat (List.length cs)) - 1)
      / inject_Z (APIClient.requests_per_second self) <= clock s' - clock s.
Proof.
  intros Hpos Hc s'. subst s'.
  destruct (run_calls_spaced self cs env Hpos Hc s) as (ts & St & Len & Sp & Mono & T).
  exists ts. split; [exact St|]. split; [exact Len|]. split; [exact Sp|].
  pose proof (min_interval_pos self Hpos) as Pmi.
  assert (D : (inject_Z (Z.of_nat (List.length cs)) - 1)
                / inject_Z (APIClient.requests_per_second self)
              == (inject_Z (Z.of_nat (List.length cs)) - 1) * min_interval self).
  { unfold min_interval. field. intro Z0.
    assert (0 < inject_Z (APIClient.requests_per_second self)).
    { replace 0 with (inject_Z 0) by reflexivity. rewrite <- Zlt_Qlt. exact Hpos. }
    lra. }
  rewrite D.
  destruct ts as [|t1 ts'].
  - destruct cs; [|discriminate Len]. simpl.
    assert (X : (0 - 1) * min_interval self == - min_interval self) by ring.
    change (inject_Z 0) with 0. rewrite X. lra.
  - destruct T as [Lo Hi]. lra.
Qed.

Lemma sequential_calls_spaced_witness :
  (0 < APIClient.requests_per_second example_client)%Z /\
  causal (steady 200) /\
  exists ts,
    stamps (trace (run_calls example_client
                     [Get "/posts" None; Post "/posts" None None; Delete "/posts/1"]
                     (steady 200) (idle 1000))) = ts /\
    List.length ts = 3%nat /\
    spaced (1 / 5) (0 :: ts).
Proof.
  assert (H1 : (0 < APIClient.requests_per_second example_client)%Z) by reflexivity.
  assert (H2 : causal (steady 200)) by (intro k; simpl; apply Qle_refl).
  split; [exact H1|]. split; [exact H2|].
  destruct (sequential_calls_spaced example_client
              [Get "/posts" None; Post "/posts" None None; Delete "/posts/1"]
              (steady 200) (idle 1000) H1 H2) as (ts & A & B & C & _).
  exists ts. repeat split; assumption.
Defined.

(** ** The retry engine *)

Lemma increment_ok (r r' : urllib3.Retry) (method : string) (o : Outcome) :
  urllib3.increment r method o = Ok r' ->
  r' = urllib3.mkRetry (urllib3.total r - 1) (urllib3.backoff_factor r)
         (urllib3.status_forcelist r) (urllib3.allowed_methods r)
         (urllib3.raise_on_status r) (urllib3.history r ++ [o]) /\
  (1 <= urllib3.total r)%Z.
Proof.
  unfold urllib3.increment, urllib3.is_exhausted. cbn [urllib3.total].
  intro H.
  assert (K : (if (urllib3.total r - 1 =? 0)%Z then false
               else (urllib3.total r - 1 <? 0)%Z) = false).
  { destruct (if (urllib3.total r - 1 =? 0)%Z then false
              else (urllib3.total r - 1 <? 0)%Z) eqn:E; [|reflexivity].
    destruct o as [resp|[]]; try discriminate H.
    destruct (negb _); discriminate H. }
  rewrite K in H.
  assert (T : (1 <= urllib3.total r)%Z).
  { destruct (urllib3.total r - 1 =? 0)%Z eqn:E0.
    - apply Z.eqb_eq in E0. lia.
    - apply Z.ltb_ge in K. lia. }
  split; [|exact T].
  destruct o as [resp|[]]; try (inversion H; reflexivity).
  destruct (negb _); [discriminate H | inversion H; reflexivity].
Qed.



(** One step of [urlopen] on an outcome that is counted and retried. *)
Lemma urlopen_retries (fuel : nat) (r r' : urllib3.Retry) (method url : string)
    (env : Env) (s : State) :
  urllib3.increment r method (reply env (sent s)) = Ok r' ->
  match reply env (sent s) with
  | Failed _ => True
  | Responded resp => urllib3.is_retry r method (status_code resp) = true
  end ->
  urllib3.urlopen (S fuel) r method url env s =
    urllib3.urlopen fuel r' method url env
      (after (urllib3.sleep r') env (after transport_send env s)).
Proof.
  intros Hi Hr. cbn [urllib3.urlopen].
  rewrite (bind_ok transport_send _ env s (after transport_send env s)
             (reply env (sent s)) eq_refl).
  destruct (reply env (sent s)) as [resp|e].
  - rewrite Hr, Hi.
    apply (bind_ok (urllib3.sleep r') (fun _ => urllib3.urlopen fuel r' method url)
             env _ _ tt).
    apply retry_sleep_ok.
  - rewrite Hi.
    apply (bind_ok (urllib3.sleep r') (fun _ => urllib3.urlopen fuel r' method url)
             env _ _ tt).
    apply retry_sleep_ok.
Qed.

(** One step of [urlopen] on an outcome that ends the call. *)
Lemma urlopen_stops (fuel : nat) (r : urllib3.Retry) (method url : string)
    (env : Env) (s : State) :
  urllib3.urlopen (S fuel) r method url env s =
    (match reply env (sent s) with
     | Failed e =>
         match urllib3.increment r method (Failed e) with
         | Raise x => raise x
         | Ok r' => urllib3.sleep r' ;; urllib3.urlopen fuel r' method url
         end
     | Responded resp =>
         if urllib3.is_retry r method (status_code resp) then
           match urllib3.increment r method (Responded resp) with
           | Raise x => if urllib3.raise_on_status r then raise x else ret resp
           | Ok r' => urllib3.sleep r' ;; urllib3.urlopen fuel r' method url
           end
         else ret resp
     end) env (after transport_send env s).
Proof.
  cbn [urllib3.urlopen].
  rewrite (bind_ok transport_send _ env s (after transport_send env s)
             (reply env (sent s)) eq_refl).
  destruct (reply env (sent s)); reflexivity.
Qed.

Lemma sent_after_send (env : Env) (s : State) :
  sent (after transport_send env s) = S (sent s).
Proof. reflexivity. Qed.


Lemma sent_after_retry_sleep (r : urllib3.Retry) (env : Env) (s : State) :
  sent (after (urllib3.sleep r) env (after transport_send env s)) = S (sent s).
Proof.
  destruct (retry_sleep_ok r env (after transport_send env s)) as [_ E].
  rewrite E. reflexivity.
Qed.




(** ** The client over its session *)

Lemma rate_limit_sent (self : APIClient.t) (env : Env) (s : State) :
  sent (after (APIClient._rate_limit self) env s) = sent s.
Proof.
  unfold after, APIClient._rate_limit, bind, time.time, APIClient.get_last_call,
    APIClient.truediv, APIClient.set_last_call, time.sleep, raise, ret.
  destruct (APIClient.requests_per_second self =? 0)%Z; [reflexivity|].
  cbn [clock tick sent _last_call trace].
  destruct (Qlt_bool _ (1 / _)); [|reflexivity].
  cbn [clock tick sent _last_call trace].
  destruct (Qlt_bool _ 0); reflexivity.
Qed.

Lemma rate_limit_returns (self : APIClient.t) (env : Env) (s : State) :
  (0 < APIClient.requests_per_second self)%Z ->
  exists s1,
    APIClient._rate_limit self env s = (Ok tt, s1) /\ sent s1 = sent s.
Proof.
  intro Hpos. pose proof (rate_limit_sent self env s) as N. unfold after in N.
  revert N. run_rate_limit Hpos E; intro N; eexists; split; try reflexivity; exact N.
Qed.

(** The adapter hands back what [urlopen] returns and leaves the state it
    leaves. *)
Lemma send_after (a : requests.HTTPAdapter) (method url : string)
    (env : Env) (s : State) :
  after (requests.send a method url) env s =
  after (urllib3.urlopen (requests.depth (requests.max_retries a))
           (requests.max_retries a) method url) env s.
Proof.
  unfold after, requests.send.
  destruct (urllib3.urlopen _ _ _ _ env s) as [[resp|x] s']; [reflexivity|].
  destruct x as [| | |[r|e]|e|e|st|st|]; reflexivity.
Qed.

Lemma send_ok (a : requests.HTTPAdapter) (method url : string)
    (env : Env) (s s' : State) (resp : Response) :
  urllib3.urlopen (requests.depth (requests.max_retries a))
    (requests.max_retries a) method url env s = (Ok resp, s') ->
  requests.send a method url env s = (Ok resp, s').
Proof. intro E. unfold requests.send. rewrite E. reflexivity. Qed.

(** A call is its pass through the rate limiter followed by one
    [urlopen] under the client's policy. *)
Lemma request_after (self : APIClient.t) (method endpoint : string)
    (kwargs : Kwargs) (env : Env) (s : State) :
  (0 < APIClient.requests_per_second self)%Z ->
  exists s1,
    sent s1 = sent s /\
    APIClient._request self method endpoint kwargs env s =
      requests.send (requests.adapter (APIClient.session self))
        (upper (upper method)) (APIClient.base_url self ++ endpoint)%string env s1.
Proof.
  intro Hpos. destruct (rate_limit_returns self env s Hpos) as (s1 & E & N).
  exists s1. split; [exact N|].
  unfold APIClient._request. rewrite (bind_ok _ _ _ _ _ _ E). reflexivity.
Qed.

Lemma in_forcelist (st : Z) (l : list Z) :
  existsb (Z.eqb st) l = true <-> In st l.
Proof.
  rewrite existsb_exists. split.
  - intros (x & Hin & Hx). apply Z.eqb_eq in Hx. subst x. exact Hin.
  - intro Hin. exists st. split; [exact Hin|apply Z.eqb_refl].
Qed.


(** A first response whose status the policy does not list ends the call
    after one attempt and is handed to the verb. *)
Lemma request_first_response (base_url : string) (api_key : option string)
    (requests_per_second timeout max_retries : Z) (backoff_factor : Q)
    (method endpoint : string) (kwargs : Kwargs) (env : Env) (s : State)
    (resp : Response) :
  (0 < requests_per_second)%Z ->
  reply env (sent s) = Responded resp ->
  ~ In (status_code resp) [429; 500; 502; 503; 504]%Z ->
  exists s',
    APIClient._request
      (APIClient.new base_url api_key requests_per_second timeout max_retries
         backoff_factor) method endpoint kwargs env s = (Ok resp, s') /\
    sent s' = S (sent s).
Proof.
  intros Hpos Hr Hno.
  set (self := APIClient.new _ _ _ _ _ _).
  destruct (request_after self method endpoint kwargs env s Hpos) as (s1 & N & E).
  rewrite E. exists (after transport_send env s1).
  split; [|rewrite sent_after_send, N; reflexivity].
  apply send_ok. unfold requests.depth. rewrite urlopen_stops, N, Hr.
  assert (F : urllib3.is_retry
                (requests.max_retries (requests.adapter (APIClient.session self)))
                (upper (upper method)) (status_code resp) = false).
  { unfold urllib3.is_retry. destruct (negb _); [reflexivity|].
    destruct (existsb _ _) eqn:X; [|reflexivity].
    apply in_forcelist in X. exfalso. exact (Hno X). }
  rewrite F. reflexivity.
Qed.

(** ** Retries *)



(** ** Classification of outcomes *)


(** Two 500s and then a 200: exactly three attempts, and the caller gets
    the body of the third response. *)
Example third_attempt_succeeds :
  exists s',
    perform example_client (Get "/posts" None) recovering (idle 1000)
      = (Ok (PyJson "[]"), s') /\
    sent s' = 3%nat.
Proof. eexists. split; vm_compute; reflexivity. Qed.


(** C7 (what the code does). A first response with a 5xx status outside
    500, 502, 503 and 504 (501, 505, ...) is not retried: the call ends
    after exactly one attempt with the verb raising the HTTP error. *)
Theorem unlisted_5xx_not_retried
    (base_url : string) (api_key : option string)
    (requests_per_second timeout max_retries : Z) (backoff_factor : Q)
    (c : Call) (env : Env) (s : State) (resp : Response) :
  (0 < requests_per_second)%Z ->
  reply env (sent s) = Responded resp ->
  (500 <= status_code resp < 600)%Z ->
  ~ In (status_code resp) [500; 502; 503; 504]%Z ->
  exists s',
    perform (APIClient.new base_url api_key requests_per_second timeout
               max_retries backoff_factor) c env s
      = (Raise (HTTPError (status_code resp)), s') /\
    sent s' = S (sent s).
Proof.
  intros Hpos Hr Hst Hno.
  destruct (request_first_response base_url api_key requests_per_second timeout
              max_retries backoff_factor (method_of c) (endpoint_of c) (kwargs_of c) env s resp
              Hpos Hr) as (s' & E & N).
  { simpl in *. intros [X|X]; [lia|]. exact (Hno X). }
  exists s'. split; [|exact N].
  rewrite perform_result, E.
  assert (B : andb (400 <=? status_code resp)%Z (status_code resp <? 600)%Z = true).
  { apply andb_true_iff. split; [apply Z.leb_le|apply Z.ltb_lt]; lia. }
  rewrite B. reflexivity.
Qed.

Lemma unlisted_5xx_not_retried_witness :
  (0 < 10)%Z /\
  exists s',
    perform (APIClient.new "https://jsonplaceholder.typicode.com" None 10 30 5 (1 # 2))
            (Get "/posts" None) (steady 501) (idle 1000)
      = (Raise (HTTPError 501), s') /\
    sent s' = 1%nat.
Proof.
  assert (H1 : (0 < 10)%Z) by reflexivity.
  split; [exact H1|].
  refine (unlisted_5xx_not_retried "https://jsonplaceholder.typicode.com" None
            10 30 5 (1 # 2) (Get "/posts" None) (steady 501) (idle 1000)
            (mkResponse 501 (Some "{}")) H1 eq_refl _ _).
  - simpl. lia.
  - simpl. intros [X|[X|[X|[X|[]]]]]; discriminate X.
Defined.

(** ** What the verbs return *)

(** C8 (as claimed, refuted). On a 200 response whose body decodes to
    ["{}"], [delete] returns [None], not the decoded body. *)
Lemma delete_returns_body_counterexample :
  fst (perform example_client (Delete "/posts/1") (steady 200) (idle 1000))
    = Ok PyNone /\
  fst (perform example_client (Delete "/posts/1") (steady 200) (idle 1000))
    <> Ok (PyJson "{}").
Proof. split; [reflexivity|discriminate]. Qed.

(** C8 (amended). A verb returns a value only when [_request] returned a
    response whose status is not an error status; the value is the
    decoded body for [get], [post] and [put], and [None] for [delete].
    In every other case the verb raises: the exception [_request] raised,
    an [HTTPError] for a 4xx or 5xx response, or, for the three verbs that
    decode, a [JSONDecodeError] for a body that is not JSON. *)
Theorem verbs_return (self : APIClient.t) (c : Call) (env : Env) (s : State) :
  match perform self c env s with
  | (Ok v, s') =>
      exists r,
        APIClient._request self (method_of c) (endpoint_of c) (kwargs_of c) env s = (Ok r, s') /\
        (status_code r < 400 \/ 600 <= status_code r)%Z /\
        match c with
        | Delete _ => v = PyNone
        | _ => exists j, json_body r = Some j /\ v = PyJson j
        end
  | (Raise x, s') =>
      APIClient._request self (method_of c) (endpoint_of c) (kwargs_of c) env s = (Raise x, s') \/
      exists r,
        APIClient._request self (method_of c) (endpoint_of c) (kwargs_of c) env s = (Ok r, s') /\
        ((400 <= status_code r < 600)%Z /\ x = HTTPError (status_code r) \/
         (status_code r < 400 \/ 600 <= status_code r)%Z /\
         json_body r = None /\ x = JSONDecodeError /\
         forall e, c <> Delete e)
  end.
Proof.
  rewrite perform_result.
  destruct (APIClient._request self (method_of c) (endpoint_of c) (kwargs_of c) env s)
    as [[r|x] s']; [|left; reflexivity].
  destruct (andb (400 <=? status_code r)%Z (status_code r <? 600)%Z) eqn:B.
  - apply andb_true_iff in B. destruct B as [B1 B2].
    apply Z.leb_le in B1. apply Z.ltb_lt in B2.
    right. exists r. split; [reflexivity|]. left. split; [lia|reflexivity].
  - assert (R : (status_code r < 400 \/ 600 <= status_code r)%Z).
    { apply andb_false_iff in B. destruct B as [B|B];
        [apply Z.leb_gt in B | apply Z.ltb_ge in B]; lia. }
    destruct c as [e p|e d j|e d j|e];
      try (exists r; split; [reflexivity|]; split; [exact R|reflexivity]);
      (destruct (json_body r) as [body|] eqn:J;
       [ exists r; split; [reflexivity|]; split; [exact R|];
         exists body; split; [exact J|reflexivity]
       | right; exists r; split; [reflexivity|]; right;
         repeat split; try assumption; intros e' X; discriminate X ]).
Qed.

(** ** Where the rate limiter sits *)

(** Every attempt [urlopen] makes is a [Sent] event of the trace and
    starts at or after the instant [urlopen] was entered. *)
Lemma urlopen_starts (fuel : nat) :
  forall (r : urllib3.Retry) (method url : string) (env : Env) (s : State),
    causal env ->
    exists l,
      starts (trace (after (urllib3.urlopen fuel r method url) env s))
        = starts (trace s) ++ l /\
      Forall (fun u => clock s <= u) l /\
      sent (after (urllib3.urlopen fuel r method url) env s)
        = (sent s + List.length l)%nat.
Proof.
  induction fuel as [|fuel IH]; intros r method url env s Hc.
  - exists []. split; [simpl; rewrite app_nil_r; reflexivity|].
    split; [constructor|]. unfold after. simpl. lia.
  - set (s1 := after transport_send env s).
    assert (T1 : starts (trace s1) = starts (trace s) ++ [clock s])
      by (subst s1; unfold after, transport_send; simpl; rewrite starts_app; reflexivity).
    assert (N1 : sent s1 = S (sent s)) by reflexivity.
    assert (Stop : forall res : Result Response,
      exists l, starts (trace (snd (res, s1))) = starts (trace s) ++ l /\
                Forall (fun u => clock s <= u) l /\
                sent (snd (res, s1)) = (sent s + List.length l)%nat).
    { intro res. exists [clock s]. split; [exact T1|].
      split; [constructor; [apply Qle_refl|constructor]|].
      cbn [snd List.length]. lia. }
    assert (Go : forall r',
      exists l,
        starts (trace (snd ((urllib3.sleep r' ;; urllib3.urlopen fuel r' method url)
                              env s1))) = starts (trace s) ++ l /\
        Forall (fun u => clock s <= u) l /\
        sent (snd ((urllib3.sleep r' ;; urllib3.urlopen fuel r' method url) env s1))
          = (sent s + List.length l)%nat).
    { intro r'.
      rewrite (bind_ok (urllib3.sleep r') (fun _ => urllib3.urlopen fuel r' method url)
                 env s1 (after (urllib3.sleep r') env s1) tt)
        by apply retry_sleep_ok.
      set (s2 := after (urllib3.sleep r') env s1).
      assert (C2 : clock s <= clock s2).
      { destruct (frame_transport_send env s Hc) as [A _].
        destruct (frame_retry_sleep r' env s1 Hc) as [B _].
        subst s2 s1. eapply Qle_trans; eassumption. }
      assert (N2 : sent s2 = S (sent s)) by apply sent_after_retry_sleep.
      assert (T2 : starts (trace s2) = starts (trace s1)).
      { subst s2. unfold after, urllib3.sleep, urllib3._sleep_backoff, time.sleep.
        destruct (Qle_bool _ 0); [reflexivity|].
        destruct (Qlt_bool _ 0); [reflexivity|]. simpl.
        rewrite starts_app. simpl. apply app_nil_r. }
      destruct (IH r' method url env s2 Hc) as (l & E & F & N).
      exists (clock s :: l). split; [|split].
      - unfold after in E. rewrite E, T2, T1, <- app_assoc. reflexivity.
      - constructor; [apply Qle_refl|].
        eapply Forall_impl; [|exact F]. intros u Hu. simpl in Hu.
        eapply Qle_trans; eassumption.
      - unfold after in N. rewrite N, N2. cbn [List.length]. lia. }
    unfold after. rewrite urlopen_stops. fold s1.
    destruct (reply env (sent s)) as [resp|e].
    + destruct (urllib3.is_retry r method (status_code resp)); [|apply Stop].
      destruct (urllib3.increment r method (Responded resp)) as [r'|x]; [apply Go|].
      destruct (urllib3.raise_on_status r); apply Stop.
    + destruct (urllib3.increment r method (Failed e)) as [r'|x]; [apply Go|apply Stop].
Qed.

(** C1 (as claimed, refuted). [slow_client] allows 1 request per second,
    so request starts should be 1 s apart.  Against a server that always
    answers 503 one [get] passes the rate limiter once, at 1000, and then
    makes five attempts, starting at 1000, 1000, 1000.2, 1000.6 and
    1001.4: all of them within a second and a half. *)
Lemma retries_rate_limited_counterexample :
  stamps (trace (after (perform slow_client (Get "/posts" None))
                   (steady 503) (idle 1000))) = [1000] /\
  map Qred (starts (trace (after (perform slow_client (Get "/posts" None))
                             (steady 503) (idle 1000))))
    = [1000; 1000; 5001 # 5; 5003 # 5; 5007 # 5] /\
  ~ spaced (1 / inject_Z (APIClient.requests_per_second slow_client))
      (starts (trace (after (perform slow_client (Get "/posts" None))
                        (steady 503) (idle 1000)))).
Proof.
  split; [vm_compute; reflexivity|]. split; [vm_compute; reflexivity|].
  intro H. vm_compute in H. destruct H as [H _]. apply H. reflexivity.
Qed.

(** C1 (amended). Every logical call passes through the rate limiter
    exactly once, before its first transport attempt: it stamps one
    instant, at least [1 / requests_per_second] after the previous stamp,
    and every attempt of the call, first or retry, starts at or after
    that instant.  The retries are made inside the session and are not
    rate limited. *)
Theorem call_rate_limited_once (self : APIClient.t) (c : Call)
    (env : Env) (s : State) :
  (0 < APIClient.requests_per_second self)%Z ->
  causal env ->
  exists t l,
    stamps (trace (after (perform self c) env s)) = stamps (trace s) ++ [t] /\
    _last_call s + 1 / inject_Z (APIClient.requests_per_second self) <= t /\
    starts (trace (after (perform self c) env s)) = starts (trace s) ++ l /\
    Forall (fun u => t <= u) l /\
    List.length l = (sent (after (perform self c) env s) - sent s)%nat.
Proof.
  intros Hpos Hc. rewrite perform_after.
  destruct (rate_limit_admits self env s Hpos Hc)
    as (s1 & E & L & St & Sr & N & Sp & _).
  unfold after, APIClient._request. rewrite (bind_ok _ _ _ _ _ _ E).
  unfold requests.request.
  fold (after (requests.send (requests.adapter (APIClient.session self))
                 (upper (upper (method_of c)))
                 (APIClient.base_url self ++ endpoint_of c)%string) env s1).
  rewrite send_after.
  change (requests.max_retries (requests.adapter (APIClient.session self)))
    with (policy self).
  destruct (frame_urlopen (requests.depth (policy self)) (policy self)
              (upper (upper (method_of c)))
              (APIClient.base_url self ++ endpoint_of c)%string env s1 Hc)
    as (_ & _ & T & _).
  destruct (urlopen_starts (requests.depth (policy self)) (policy self)
              (upper (upper (method_of c)))
              (APIClient.base_url self ++ endpoint_of c)%string env s1 Hc)
    as (l & Es & F & Ns).
  exists (clock s1), l. split; [rewrite T, St; reflexivity|].
  split; [exact Sp|]. split; [rewrite Es, Sr; reflexivity|]. split; [exact F|].
  rewrite Ns, N. lia.
Qed.

Lemma call_rate_limited_once_witness :
  (0 < APIClient.requests_per_second example_client)%Z /\
  causal (steady 503) /\
  exists t l,
    stamps (trace (after (perform example_client (Get "/posts" None))
                     (steady 503) (idle 1000))) = [t] /\
    starts (trace (after (perform example_client (Get "/posts" None))
                     (steady 503) (idle 1000))) = l /\
    Forall (fun u => t <= u) l.
Proof.
  assert (H1 : (0 < APIClient.requests_per_second example_client)%Z) by reflexivity.
  assert (H2 : causal (steady 503)) by (intro k; simpl; apply Qle_refl).
  split; [exact H1|]. split; [exact H2|].
  destruct (call_rate_limited_once example_client (Get "/posts" None)
              (steady 503) (idle 1000) H1 H2) as (t & l & A & _ & B & C & _).
  exists t, l. repeat split; assumption.
Defined.

(** ** Backoff *)


(** How the retry states of [after_failures] sit in a run: when the
    first [k + 1] attempts of [urlopen] are all retried, it goes on from
    the retry state [after_failures] gives for these outcomes, and the
    last thing it did before attempt [k + 2] was that state's [sleep]. *)
Lemma urlopen_unrolls (k : nat) :
  forall (fuel : nat) (r rk : urllib3.Retry) (method url : string)
         (env : Env) (s : State),
    after_failures r method
      (map (fun i => reply env (sent s + i)%nat) (seq 0 (S k))) = Ok rk ->
    (forall i, (i <= k)%nat -> retry_outcome r method (reply env (sent s + i))) ->
    exists s_pre,
      sent s_pre = (sent s + S k)%nat /\
      urllib3.urlopen (S k + fuel) r method url env s =
        urllib3.urlopen fuel rk method url env (after (urllib3.sleep rk) env s_pre).
Proof.
  induction k as [|k IH]; intros fuel r rk method url env s Haf Hpre;
    pose proof (Hpre 0%nat ltac:(lia)) as H0; rewrite Nat.add_0_r in H0;
    change (seq 0 (S ?n)) with (0%nat :: seq 1 n) in Haf;
    cbn [map after_failures] in Haf; rewrite Nat.add_0_r in Haf;
    destruct (urllib3.increment r method (reply env (sent s))) as [r'|x] eqn:Ei;
    try discriminate Haf.
  - cbn [seq map after_failures] in Haf. injection Haf as <-.
    exists (after transport_send env s).
    split; [rewrite sent_after_send; lia|].
    apply (urlopen_retries fuel r r' method url env s Ei H0).
  - change (S (S k) + fuel)%nat with (S (S k + fuel)).
    rewrite (urlopen_retries (S k + fuel) r r' method url env s Ei H0).
    set (s2 := after (urllib3.sleep r') env (after transport_send env s)).
    assert (S2 : sent s2 = S (sent s)) by apply sent_after_retry_sleep.
    destruct (increment_ok _ _ _ _ Ei) as [Er' _].
    destruct (IH fuel r' rk method url env s2) as (s_pre & N & E).
    + rewrite <- Haf. f_equal. rewrite <- seq_shift, map_map.
      apply map_ext. intro i. rewrite S2. f_equal. lia.
    + intros i Hi. rewrite S2.
      replace (S (sent s) + i)%nat with (sent s + S i)%nat by lia.
      rewrite Er'. apply (Hpre (S i)). lia.
    + exists s_pre. split; [rewrite N, S2; lia|exact E].
Qed.




(** ** Several callers *)

(** C9 (as claimed, refuted). Two callers on a fresh example client
    (5 requests per second) at clock reading 1000, interleaved so that
    both read the stamp before either writes it: neither sleeps and both
    are admitted at 1000, at the same instant instead of 1/5 s apart. *)
Lemma concurrent_callers_counterexample :
  exists s',
    threads.run false example_client overlapping
      ([threads.Idle; threads.Idle], idle 1000)
      = Some ([threads.Idle; threads.Idle], s') /\
    stamps (trace s') = [1000; 1000] /\
    ~ spaced (1 / inject_Z (APIClient.requests_per_second example_client))
        (stamps (trace s')).
Proof.
  eexists. split; [vm_compute; reflexivity|].
  split; [reflexivity|].
  intro H. vm_compute in H. destruct H as [H _]. apply H. reflexivity.
Qed.

Lemma idle_ok (self : APIClient.t) (s : State) (ths : list threads.Pc) :
  forallb threads.is_idle ths = true -> Forall (threads.ok self s) ths.
Proof.
  induction ths as [|p t IH]; intro H; [constructor|].
  simpl in H. apply andb_true_iff in H. destruct H as [Hp Ht].
  constructor; [destruct p; try discriminate Hp; exact I|apply IH; exact Ht].
Qed.

Lemma set_thread_ok (self : APIClient.t) (s : State) (pc : threads.Pc) :
  forall (ths : list threads.Pc) (i : nat),
    threads.others_idle i ths = true ->
    threads.ok self s pc ->
    Forall (threads.ok self s) (threads.set_thread i pc ths).
Proof.
  induction ths as [|p t IH]; intros i Ho Hpc; [destruct i; constructor|].
  destruct i as [|i]; simpl in *.
  - constructor; [exact Hpc|apply idle_ok; exact Ho].
  - apply andb_true_iff in Ho. destruct Ho as [Hp Ho].
    constructor; [destruct p; try discriminate Hp; exact I|apply IH; assumption].
Qed.

(** One statement of a thread that nobody disturbed: it keeps what it
    knows, and when it stamps, the stamp is at least [min_interval] after
    the previous one. *)
Lemma statement_inv (self : APIClient.t) (s s' : State) (pc pc' : threads.Pc) :
  (0 < APIClient.requests_per_second self)%Z ->
  threads.ok self s pc ->
  threads.statement self pc s = Some (pc', s') ->
  threads.ok self s' pc' /\
  (stamps (trace s') = stamps (trace s) /\ _last_call s' = _last_call s \/
   stamps (trace s') = stamps (trace s) ++ [_last_call s'] /\
   _last_call s + min_interval self <= _last_call s').
Proof.
  intros Hpos Hok H.
  destruct pc as [|now|now el|now el mi|wake|]; simpl in H, Hok.
  - injection H as <- <-. simpl. split; [apply Qle_refl|left; split; reflexivity].
  - injection H as <- <-. simpl.
    split; [split; [exact Hok|reflexivity]|left; split; reflexivity].
  - rewrite (proj2 (Z.eqb_neq _ 0) (Z.neq_sym _ _ (Z.lt_neq _ _ Hpos))) in H.
    injection H as <- <-. simpl. destruct Hok as [A B].
    split; [repeat split; try assumption; reflexivity|left; split; reflexivity].
  - destruct Hok as (A & B & C).
    destruct (Qlt_bool el mi) eqn:E; injection H as <- <-; simpl.
    + split; [rewrite B, C; lra|left]. rewrite stamps_app. simpl.
      rewrite app_nil_r. split; reflexivity.
    + apply Qlt_bool_false in E. rewrite B, C in E.
      split; [lra|left; split; reflexivity].
  - destruct (Qle_bool wake (clock s)) eqn:E; [|discriminate H].
    apply Qle_bool_iff in E. injection H as <- <-. simpl.
    split; [lra|left; split; reflexivity].
  - injection H as <- <-. simpl. split; [exact I|right].
    rewrite stamps_app. split; [reflexivity|exact Hok].
Qed.

Lemma tick_ok (self : APIClient.t) (s : State) (d : Q) (pc : threads.Pc) :
  0 <= d ->
  threads.ok self s pc ->
  threads.ok self (mkState (clock s + d) (tick s) (sent s) (_last_call s) (trace s)) pc.
Proof.
  intros Hd Hok. destruct pc as [|now|now el|now el mi|wake|]; simpl in *.
  - exact I.
  - lra.
  - destruct Hok as [A B]. split; [lra|exact B].
  - destruct Hok as (A & B & C). repeat split; try assumption. lra.
  - exact Hok.
  - lra.
Qed.

Lemma exclusive_step (self : APIClient.t) (a : threads.Action)
    (cfg cfg' : threads.Config) :
  threads.step true self a cfg = Some cfg' ->
  threads.step false self a cfg = Some cfg'.
Proof.
  destruct cfg as [ths s]. destruct a as [i|d]; simpl; [|tauto].
  destruct (negb (threads.others_idle i ths)); [discriminate|tauto].
Qed.

Lemma exclusive_run (self : APIClient.t) (sched : list threads.Action) :
  forall cfg cfg',
    threads.run true self sched cfg = Some cfg' ->
    threads.run false self sched cfg = Some cfg'.
Proof.
  induction sched as [|a sched IH]; intros cfg cfg' H; simpl in *; [exact H|].
  destruct (threads.step true self a cfg) as [c|] eqn:E; [|discriminate H].
  rewrite (exclusive_step _ _ _ _ E). apply IH. exact H.
Qed.

Lemma exclusive_run_spaced (self : APIClient.t) (sched : list threads.Action) :
  (0 < APIClient.requests_per_second self)%Z ->
  forall ths s cfg',
    Forall (threads.ok self s) ths ->
    threads.run true self sched (ths, s) = Some cfg' ->
    exists ts,
      stamps (trace (snd cfg')) = stamps (trace s) ++ ts /\
      spaced (min_interval self) (_last_call s :: ts).
Proof.
  intro Hpos. induction sched as [|a sched IH]; intros ths s cfg' Hok H.
  - injection H as <-. exists []. simpl. rewrite app_nil_r. split; [reflexivity|exact I].
  - cbn [threads.run] in H.
    destruct (threads.step true self a (ths, s)) as [[ths1 s1]|] eqn:E; [|discriminate H].
    assert (Inv : Forall (threads.ok self s1) ths1 /\
                  (stamps (trace s1) = stamps (trace s) /\ _last_call s1 = _last_call s \/
                   stamps (trace s1) = stamps (trace s) ++ [_last_call s1] /\
                   _last_call s + min_interval self <= _last_call s1)).
    { destruct a as [i|d]; cbn [threads.step andb] in E.
      - destruct (threads.others_idle i ths) eqn:Ho; [|discriminate E].
        cbn [negb] in E.
        destruct (nth_error ths i) as [pc|] eqn:En; [|discriminate E].
        destruct (threads.statement self pc s) as [[pc' s']|] eqn:Es; [|discriminate E].
        injection E as <- <-.
        assert (Hpc : threads.ok self s pc).
        { rewrite Forall_forall in Hok. apply Hok. eapply nth_error_In. exact En. }
        destruct (statement_inv self s s' pc pc' Hpos Hpc Es) as [A B].
        split; [apply set_thread_ok; assumption|exact B].
      - destruct (Qlt_bool d 0) eqn:Ed; [discriminate E|].
        apply Qlt_bool_false in Ed. injection E as <- <-.
        split; [|left; split; reflexivity].
        eapply Forall_impl; [|exact Hok]. intros pc Hpc. apply tick_ok; assumption. }
    destruct Inv as [Hok1 Hst].
    destruct (IH ths1 s1 cfg' Hok1 H) as (ts & Et & Sp).
    destruct Hst as [[St L]|[St L]].
    + exists ts. rewrite Et, St, <- L. split; [reflexivity|exact Sp].
    + exists (_last_call s1 :: ts). rewrite Et, St, <- app_assoc.
      split; [reflexivity|]. split; [exact L|exact Sp].
Qed.

(** C9 (amended). [_rate_limit] takes no lock, and callers whose passes
    through it overlap can be admitted at the same instant.  When the
    passes do not overlap - every caller enters only while no other caller
    is inside - the run is one of the runs of the unguarded code, and in
    it no two admissions are closer than [1 / requests_per_second],
    whatever the number of callers and however time goes by. *)
Theorem exclusive_callers_spaced (self : APIClient.t)
    (sched : list threads.Action) (ths : list threads.Pc) (s : State)
    (cfg' : threads.Config) :
  (0 < APIClient.requests_per_second self)%Z ->
  forallb threads.is_idle ths = true ->
  threads.run true self sched (ths, s) = Some cfg' ->
  threads.run false self sched (ths, s) = Some cfg' /\
  exists ts,
    stamps (trace (snd cfg')) = stamps (trace s) ++ ts /\
    spaced (1 / inject_Z (APIClient.requests_per_second self)) (_last_call s :: ts).
Proof.
  intros Hpos Hidle H. split; [apply exclusive_run; exact H|].
  apply (exclusive_run_spaced self sched Hpos ths s cfg'); [|exact H].
  apply idle_ok. exact Hidle.
Qed.

Lemma exclusive_callers_spaced_witness :
  (0 < APIClient.requests_per_second example_client)%Z /\
  exists cfg',
    threads.run true example_client one_by_one
      ([threads.Idle; threads.Idle], idle 1000) = Some cfg' /\
    exists ts,
      stamps (trace (snd cfg')) = ts /\
      spaced (1 / 5) (0 :: ts).
Proof.
  assert (H1 : (0 < APIClient.requests_per_second example_client)%Z) by reflexivity.
  split; [exact H1|].
  eexists. split; [vm_compute; reflexivity|].
  destruct (exclusive_callers_spaced example_client one_by_one
              [threads.Idle; threads.Idle] (idle 1000) _ H1 eq_refl
              ltac:(vm_compute; reflexivity)) as (_ & ts & A & B).
  exists ts. split; [exact A|exact B].
Defined.

(** A single caller in the thread model does what [_rate_limit] does when
    nothing but the sleep takes time: it sleeps under the same condition,
    for the same time, and leaves the same stamp. *)
Lemma thread_alone_agrees (self : APIClient.t) (rep : nat -> Outcome) (s : State) :
  (0 < APIClient.requests_per_second self)%Z ->
  exists s',
    threads.run false self (alone self s) ([threads.Idle], s)
      = Some ([threads.Idle], s') /\
    _last_call s' ==
      _last_call (after (APIClient._rate_limit self) (mkEnv (fun _ => 0) rep) s) /\
    Forall2 Qeq (sleeps (trace s'))
      (sleeps (trace (after (APIClient._rate_limit self) (mkEnv (fun _ => 0) rep) s))).
Proof.
  intro Hpos. unfold after.
  assert (Hz : (APIClient.requests_per_second self =? 0)%Z = false)
    by (apply Z.eqb_neq; lia).
  assert (Refl : forall l : list Q, Forall2 Qeq l l)
    by (induction l; constructor; [reflexivity|assumption]).
  run_rate_limit Hpos E; cbn [lag] in E |- *; unfold alone;
    destruct (Qlt_bool (clock s - _last_call s) (min_interval self)) eqn:F;
    try (apply Qlt_bool_iff in F); try (apply Qlt_bool_false in F);
    try (exfalso; lra).
  - assert (T : Qlt_bool (min_interval self - (clock s - _last_call s)) 0 = false)
      by (apply Qlt_bool_false; lra).
    assert (W : forall x : Q, Qle_bool x x = true)
      by (intro x; apply Qle_bool_iff; apply Qle_refl).
    repeat first
      [ progress cbn [threads.run threads.step threads.statement andb nth_error
                      threads.set_thread clock tick sent _last_call trace]
      | rewrite Hz
      | progress change (1 / inject_Z (APIClient.requests_per_second self))
          with (min_interval self)
      | rewrite (proj2 (Qlt_bool_iff _ _) F)
      | rewrite T
      | rewrite W ].
    eexists. split; [reflexivity|]. cbn [clock tick sent _last_call trace snd].
    split; [ring|].
    rewrite !sleeps_app. simpl. rewrite !app_nil_r.
    apply Forall2_app; [apply Refl|]. constructor; [ring|constructor].
  - repeat first
      [ progress cbn [threads.run threads.step threads.statement andb nth_error
                      threads.set_thread clock tick sent _last_call trace]
      | rewrite Hz
      | progress change (1 / inject_Z (APIClient.requests_per_second self))
          with (min_interval self)
      | rewrite (proj2 (Qlt_bool_false _ _) F) ].
    eexists. split; [reflexivity|]. cbn [clock tick sent _last_call trace snd].
    split; [ring|].
    rewrite !sleeps_app. simpl. rewrite !app_nil_r. apply Refl.
Qed.

(** * Further properties of the code *)

(** ** The constructor *)

Lemma rstrip_slash_no_slash (s : string) : ends_slash (rstrip_slash s) = false.
Proof.
  induction s as [|c s IH]; [reflexivity|].
  cbn [rstrip_slash]. destruct (rstrip_slash s) as [|d t] eqn:E.
  - destruct (Ascii.eqb c "/"%char) eqn:Ec; [reflexivity|].
    cbn [ends_slash]. exact Ec.
  - cbn [ends_slash] in *. exact IH.
Qed.

Lemma rstrip_slash_trailing (s : string) :
  exists n, s = (rstrip_slash s ++ slashes n)%string.
Proof.
  induction s as [|c s [n IH]]; [exists 0%nat; reflexivity|].
  cbn [rstrip_slash]. destruct (rstrip_slash s) as [|d t] eqn:E.
  - destruct (Ascii.eqb_spec c "/"%char) as [->|Hc].
    + exists (S n). cbn [slashes String.append] in *. rewrite IH at 1. reflexivity.
    + exists n. cbn [String.append] in *. rewrite IH at 1. reflexivity.
  - exists n. cbn [String.append] in *. rewrite IH at 1. reflexivity.
Qed.

Lemma rstrip_slash_app_slash (s : string) :
  rstrip_slash (s ++ "/") = rstrip_slash s.
Proof.
  induction s as [|c s IH]; [reflexivity|].
  cbn [String.append rstrip_slash]. rewrite IH. reflexivity.
Qed.

(** X1. The base URL a client keeps is the one it was given with every
    trailing slash, and nothing else, removed: it does not end in a slash,
    the given URL is the kept one followed by slashes only, and a slash
    more at the end of the given URL gives the same client. *)
Theorem base_url_normalised
    (base_url : string) (api_key : option string)
    (requests_per_second timeout max_retries : Z) (backoff_factor : Q) :
  let self := APIClient.new base_url api_key requests_per_second timeout
                max_retries backoff_factor in
  ends_slash (APIClient.base_url self) = false /\
  (exists n, base_url = (APIClient.base_url self ++ slashes n)%string) /\
  APIClient.new (base_url ++ "/") api_key requests_per_second timeout
                max_retries backoff_factor = self.
Proof.
  cbn [APIClient.new APIClient.base_url].
  split; [apply rstrip_slash_no_slash|].
  split; [apply rstrip_slash_trailing|].
  unfold APIClient.new. rewrite rstrip_slash_app_slash. reflexivity.
Qed.

(** ** The rate limiter at its edges *)

(** X2. A client constructed with [requests_per_second = 0] cannot make
    a call: every verb raises [ZeroDivisionError] out of the rate
    limiter, before anything is sent and without touching the stamp. *)
Theorem zero_rate_raises (self : APIClient.t) (c : Call) (env : Env) (s : State) :
  APIClient.requests_per_second self = 0%Z ->
  exists s',
    perform self c env s = (Raise ZeroDivisionError, s') /\
    sent s' = sent s /\
    trace s' = trace s /\
    _last_call s' = _last_call s.
Proof.
  intro H0. rewrite perform_result.
  unfold APIClient._request, APIClient._rate_limit, bind, time.time,
    APIClient.get_last_call, APIClient.truediv, raise.
  rewrite H0. cbn [Z.eqb]. eexists. split; [reflexivity|].
  repeat split; reflexivity.
Qed.

Lemma zero_rate_raises_witness :
  APIClient.requests_per_second
    (APIClient.new "https://jsonplaceholder.typicode.com" None 0 30 4 1) = 0%Z /\
  exists s',
    perform (APIClient.new "https://jsonplaceholder.typicode.com" None 0 30 4 1)
            (Get "/posts" None) (steady 200) (idle 1000)
      = (Raise ZeroDivisionError, s') /\
    sent s' = 0%nat.
Proof.
  split; [reflexivity|].
  destruct (zero_rate_raises
              (APIClient.new "https://jsonplaceholder.typicode.com" None 0 30 4 1)
              (Get "/posts" None) (steady 200) (idle 1000) eq_refl)
    as (s' & A & B & _).
  exists s'. split; [exact A|exact B].
Defined.

(** X3. A negative [requests_per_second] turns the rate limiter off:
    as long as the stamp is not ahead of the clock, a pass never sleeps,
    whatever the time since the previous pass. *)
Theorem negative_rate_never_sleeps (self : APIClient.t) (env : Env) (s : State) :
  (APIClient.requests_per_second self < 0)%Z ->
  causal env ->
  _last_call s <= clock s ->
  exists s',
    APIClient._rate_limit self env s = (Ok tt, s') /\
    trace s' = trace s ++ [Stamped (clock s')] /\
    clock s' = clock s + lag env (tick s) + lag env (S (tick s)).
Proof.
  intros Hneg Hc Hs. pose proof (Hc (tick s)) as L0.
  unfold APIClient._rate_limit, bind, time.time, APIClient.get_last_call,
    APIClient.truediv, APIClient.set_last_call, raise, ret.
  rewrite (proj2 (Z.eqb_neq _ 0) (Z.lt_neq _ _ Hneg)).
  cbn [clock tick sent _last_call trace].
  assert (N : 1 / inject_Z (APIClient.requests_per_second self) < 0).
  { assert (I : inject_Z (APIClient.requests_per_second self) < 0).
    { replace 0 with (inject_Z 0) by reflexivity. rewrite <- Zlt_Qlt. exact Hneg. }
    unfold Qdiv. rewrite Qmult_1_l.
    destruct (inject_Z (APIClient.requests_per_second self)) as [[|n|n] d];
      unfold Qlt in *; simpl in *; lia. }
  rewrite (proj2 (Qlt_bool_false _ _)) by lra.
  eexists. split; [reflexivity|]. split; reflexivity.
Qed.

Lemma negative_rate_never_sleeps_witness :
  (APIClient.requests_per_second
     (APIClient.new "https://jsonplaceholder.typicode.com" None (-5) 30 4 1) < 0)%Z /\
  causal (steady 200) /\
  _last_call (mkState 1000 0 0 1000 []) <= clock (mkState 1000 0 0 1000 []) /\
  exists s',
    APIClient._rate_limit
      (APIClient.new "https://jsonplaceholder.typicode.com" None (-5) 30 4 1)
      (steady 200) (mkState 1000 0 0 1000 []) = (Ok tt, s') /\
    trace s' = [Stamped (clock s')].
Proof.
  assert (H1 : (APIClient.requests_per_second
                  (APIClient.new "https://jsonplaceholder.typicode.com" None
                     (-5) 30 4 1) < 0)%Z) by reflexivity.
  assert (H2 : causal (steady 200)) by (intro k; simpl; apply Qle_refl).
  assert (H3 : _last_call (mkState 1000 0 0 1000 []) <= clock (mkState 1000 0 0 1000 []))
    by apply Qle_refl.
  split; [exact H1|]. split; [exact H2|]. split; [exact H3|].
  destruct (negative_rate_never_sleeps _ (steady 200) (mkState 1000 0 0 1000 [])
              H1 H2 H3) as (s' & A & B & _).
  exists s'. split; [exact A|exact B].
Defined.

(** The stamp is never ahead of the clock: a pass stamps the clock
    reading it has just taken, and nothing else writes the stamp. *)
Lemma stamp_behind_rate_limit (self : APIClient.t) (env : Env) (s : State) :
  causal env ->
  _last_call s <= clock s ->
  _last_call (after (APIClient._rate_limit self) env s)
    <= clock (after (APIClient._rate_limit self) env s).
Proof.
  intros Hc Hs. pose proof (Hc (tick s)) as L0.
  unfold after, APIClient._rate_limit, bind, time.time, APIClient.get_last_call,
    APIClient.truediv, APIClient.set_last_call, time.sleep, raise, ret.
  destruct (APIClient.requests_per_second self =? 0)%Z;
    cbn [clock tick sent _last_call trace snd]; [lra|].
  destruct (Qlt_bool _ (1 / _)); cbn [clock tick sent _last_call trace snd];
    [|apply Qle_refl].
  destruct (Qlt_bool _ 0); cbn [clock tick sent _last_call trace snd];
    [lra|apply Qle_refl].
Qed.

Lemma stamp_behind_perform (self : APIClient.t) (c : Call) (env : Env) (s : State) :
  causal env ->
  _last_call s <= clock s ->
  _last_call (after (perform self c) env s) <= clock (after (perform self c) env s).
Proof.
  intros Hc Hs. rewrite perform_after.
  pose proof (stamp_behind_rate_limit self env s Hc Hs) as B.
  unfold after in *. unfold APIClient._request.
  destruct (APIClient._rate_limit self env s) as [[[]|x] s1] eqn:E; cbn [snd] in B.
  - rewrite (bind_ok _ _ _ _ _ _ E).
    destruct (frame_request (APIClient.session self) (upper (method_of c))
                (APIClient.base_url self ++ endpoint_of c)%string
                (APIClient.setdefault "timeout" (KwInt (APIClient.timeout self))
                   (kwargs_of c)) env s1 Hc) as (C & L & _).
    unfold after in C, L. rewrite L. lra.
  - rewrite (bind_raise _ _ _ _ _ _ E). exact B.
Qed.

Lemma stamp_behind_run_calls (self : APIClient.t) (cs : list Call) (env : Env) :
  causal env ->
  forall s,
    _last_call s <= clock s ->
    _last_call (run_calls self cs env s) <= clock (run_calls self cs env s).
Proof.
  intro Hc. induction cs as [|c cs IH]; intros s Hs; [exact Hs|].
  cbn [run_calls]. apply IH. apply stamp_behind_perform; assumption.
Qed.

(** X4. What the rate limiter can cost.  On a client whose stamp was not
    ahead of the clock when a sequence of calls began (a fresh client, at
    any clock reading from the epoch on), a pass through the rate limiter
    after these calls sleeps at most once, for more than nothing and for
    no more than [1 / requests_per_second]; apart from what the clock
    reads and the sleep themselves take, it holds the caller up by no more
    than that. *)
Theorem limiter_wait_bounded (self : APIClient.t) (cs : list Call)
    (env : Env) (s : State) :
  (0 < APIClient.requests_per_second self)%Z ->
  causal env ->
  _last_call s <= clock s ->
  let s1 := run_calls self cs env s in
  exists s' l,
    APIClient._rate_limit self env s1 = (Ok tt, s') /\
    sleeps (trace s') = sleeps (trace s1) ++ l /\
    (List.length l <= 1)%nat /\
    Forall (fun d => 0 < d /\ d <= 1 / inject_Z (APIClient.requests_per_second self)) l /\
    clock s' <= clock s1 + 1 / inject_Z (APIClient.requests_per_second self)
                + lag env (tick s1) + lag env (S (tick s1))
                + lag env (S (S (tick s1))).
Proof.
  intros Hpos Hc Hs s1.
  pose proof (stamp_behind_run_calls self cs env Hc s Hs) as B. fold s1 in B.
  pose proof (min_interval_pos self Hpos) as Pmi. unfold min_interval in Pmi.
  pose proof (Hc (tick s1)) as L0. pose proof (Hc (S (tick s1))) as L1.
  pose proof (Hc (S (S (tick s1)))) as L2.
  run_rate_limit Hpos E; unfold min_interval in *.
  - eexists. eexists. split; [reflexivity|]. cbn [clock tick sent _last_call trace].
    split; [rewrite !sleeps_app; simpl; rewrite app_nil_r; reflexivity|].
    split; [simpl; lia|]. split; [|lra].
    constructor; [split; lra|constructor].
  - eexists. exists []. split; [reflexivity|]. cbn [clock tick sent _last_call trace].
    split; [rewrite !sleeps_app; simpl; rewrite !app_nil_r; reflexivity|].
    split; [simpl; lia|]. split; [constructor|lra].
Qed.

Lemma limiter_wait_bounded_witness :
  (0 < APIClient.requests_per_second example_client)%Z /\
  causal (steady 200) /\
  _last_call (idle 1000) <= clock (idle 1000) /\
  exists s' l,
    APIClient._rate_limit example_client (steady 200)
      (run_calls example_client [Get "/posts" None] (steady 200) (idle 1000))
      = (Ok tt, s') /\
    (List.length l <= 1)%nat /\
    Forall (fun d => 0 < d /\ d <= 1 / 5) l.
Proof.
  assert (H1 : (0 < APIClient.requests_per_second example_client)%Z) by reflexivity.
  assert (H2 : causal (steady 200)) by (intro k; simpl; apply Qle_refl).
  assert (H3 : _last_call (idle 1000) <= clock (idle 1000)) by (simpl; discriminate).
  split; [exact H1|]. split; [exact H2|]. split; [exact H3|].
  destruct (limiter_wait_bounded example_client [Get "/posts" None]
              (steady 200) (idle 1000) H1 H2 H3) as (s' & l & A & _ & B & C & _).
  exists s', l. repeat split; assumption.
Defined.

(** ** Retries, in general *)










(** ** What a verb can raise *)





(** ** Methods and keyword arguments of [_request] *)

Lemma upper_ascii_idem (c : ascii) : upper_ascii (upper_ascii c) = upper_ascii c.
Proof.
  destruct c as [[] [] [] [] [] [] [] []]; vm_compute; reflexivity.
Qed.

Lemma upper_idem (s : string) : upper (upper s) = upper s.
Proof.
  induction s as [|c s IH]; [reflexivity|].
  cbn [upper]. rewrite upper_ascii_idem, IH. reflexivity.
Qed.

(** X9. [_request] does not look at the case of the method name: with
    any spelling of a method it does exactly what it does with the
    upper-case one, so a lower-case verb is retried like the upper-case
    verb of the policy. *)
Theorem method_case_ignored (self : APIClient.t) (method endpoint : string)
    (kwargs : Kwargs) (env : Env) (s : State) :
  APIClient._request self method endpoint kwargs env s
    = APIClient._request self (upper method) endpoint kwargs env s.
Proof.
  unfold APIClient._request, requests.request. rewrite !upper_idem. reflexivity.
Qed.




(** ** The Gemini client *)

(** X12. [generate] cannot work: it calls [self.post] with a keyword
    argument [params], which [post] does not take, so for every client,
    prompt and system instruction the call raises [TypeError] before the
    rate limiter is reached and before anything is sent; [generate_json],
    which starts by calling [generate], raises the same way. *)
Theorem generate_never_sends
    (payload : GeminiClient.PyObj -> Dict)
    (structure : Json -> GeminiClient.PyObj)
    (loads : string -> option GeminiClient.PyObj)
    (self : GeminiClient.t) (prompt : string) (system : option string)
    (env : Env) (s : State) :
  GeminiClient.generate payload structure self prompt system env s
    = (GeminiClient.GRaise GeminiClient.TypeError, s) /\
  GeminiClient.generate_json payload structure loads self prompt system env s
    = (GeminiClient.GRaise GeminiClient.TypeError, s).
Proof.
  assert (G : forall p, GeminiClient.generate payload structure self p system env s
                        = (GeminiClient.GRaise GeminiClient.TypeError, s)).
  { intro p. unfold GeminiClient.generate, GeminiClient.gbind, GeminiClient.call_post.
    destruct system as [[|c sys]|]; reflexivity. }
  split; [apply G|].
  unfold GeminiClient.generate_json, GeminiClient.gbind. rewrite G. reflexivity.
Qed.

Lemma replace_from_absent (old new : string) :
  forall s, GeminiClient.occurs old s = false ->
            GeminiClient.replace_from old new 0 s = s.
Proof.
  induction s as [|c s IH]; intro H; [reflexivity|].
  cbn [GeminiClient.occurs] in H. apply orb_false_iff in H. destruct H as [Hp Hs].
  cbn [GeminiClient.replace_from]. rewrite Hp, (IH Hs). reflexivity.
Qed.

(** X13. The key of a Gemini client.  The constructor takes the key it
    is given, or, when it is given none or an empty one, the value of
    [GEMINI_API_KEY], and fails with [KeyError], leaving everything as it
    was, exactly when neither is there.  From a client it constructed,
    [_api_key] reads the key back out of the session's [Authorization]
    header with every ["Bearer "] inside the key removed: the key itself,
    whenever the key does not contain ["Bearer "]. *)
Theorem gemini_key_round_trip
    (environ : GeminiClient.Environ) (api_key : option string)
    (requests_per_second : Z) (env : Env) (s : State) :
  match GeminiClient.resolve_key environ api_key with
  | GeminiClient.GRaise e =>
      (api_key = None \/ api_key = Some "") /\
      GeminiClient.environ_get "GEMINI_API_KEY" environ = None /\
      GeminiClient.__init__ environ api_key requests_per_second env s
        = (GeminiClient.GRaise (GeminiClient.KeyError "GEMINI_API_KEY"), s)
  | GeminiClient.GOk key =>
      (key = match api_key with
             | Some (String c k) => String c k
             | _ => match GeminiClient.environ_get "GEMINI_API_KEY" environ with
                    | Some v => v
                    | None => ""
                    end
             end) /\
      exists self s',
        GeminiClient.__init__ environ api_key requests_per_second env s
          = (GeminiClient.GOk self, s') /\
        _last_call s' = 0 /\
        GeminiClient._api_key self = GeminiClient.replace "Bearer " "" key /\
        (GeminiClient.occurs "Bearer " key = false ->
         GeminiClient._api_key self = key)
  end.
Proof.
  assert (K : forall key,
    GeminiClient._api_key
      (GeminiClient.mk (APIClient.new GeminiClient.GEMINI_BASE (Some key)
                          requests_per_second 30 5 1) GeminiClient.GEMINI_MODEL)
    = GeminiClient.replace "Bearer " "" key).
  { intros [|c k]; reflexivity. }
  assert (Done : forall key,
    exists self s',
      GeminiClient.gbind
        (GeminiClient.lift (APIClient.__init__ GeminiClient.GEMINI_BASE (Some key)
                              requests_per_second 30 5 1))
        (fun c => GeminiClient.gret (GeminiClient.mk c GeminiClient.GEMINI_MODEL))
        env s = (GeminiClient.GOk self, s') /\
      _last_call s' = 0 /\
      GeminiClient._api_key self = GeminiClient.replace "Bearer " "" key /\
      (GeminiClient.occurs "Bearer " key = false ->
       GeminiClient._api_key self = key)).
  { intro key. eexists. eexists. split; [reflexivity|]. split; [reflexivity|].
    split; [apply K|]. intro H. rewrite K.
    unfold GeminiClient.replace. apply replace_from_absent. exact H. }
  unfold GeminiClient.__init__, GeminiClient.resolve_key.
  destruct api_key as [[|c k]|].
  - destruct (GeminiClient.environ_get "GEMINI_API_KEY" environ) as [v|].
    + split; [reflexivity|]. apply Done.
    + split; [right; reflexivity|]. split; reflexivity.
  - split; [reflexivity|]. apply Done.
  - destruct (GeminiClient.environ_get "GEMINI_API_KEY" environ) as [v|].
    + split; [reflexivity|]. apply Done.
    + split; [left; reflexivity|]. split; reflexivity.
Qed.

Lemma append_assoc_string (a b c : string) :
  ((a ++ b) ++ c)%string = (a ++ (b ++ c))%string.
Proof. induction a as [|x a IH]; [reflexivity|]. simpl. rewrite IH. reflexivity. Qed.

Lemma length_append_string (a b : string) :
  String.length (a ++ b) = (String.length a + String.length b)%nat.
Proof. induction a as [|x a IH]; [reflexivity|]. simpl. rewrite IH. reflexivity. Qed.

Lemma lstrip_spaces (ws x : string) :
  all_space ws = true -> GeminiClient.lstrip (ws ++ x) = GeminiClient.lstrip x.
Proof.
  induction ws as [|c ws IH]; intro H; [reflexivity|].
  simpl in H. apply andb_true_iff in H. destruct H as [Hc Hws].
  cbn [String.append GeminiClient.lstrip]. rewrite Hc. apply IH. exact Hws.
Qed.

Lemma rstrip_all_space (ws : string) :
  all_space ws = true -> GeminiClient.rstrip ws = EmptyString.
Proof.
  induction ws as [|c ws IH]; intro H; [reflexivity|].
  simpl in H. apply andb_true_iff in H. destruct H as [Hc Hws].
  cbn [GeminiClient.rstrip]. rewrite (IH Hws), Hc. reflexivity.
Qed.

Lemma rstrip_spaces (x ws : string) :
  all_space ws = true -> GeminiClient.rstrip (x ++ ws) = GeminiClient.rstrip x.
Proof.
  intro H. induction x as [|c x IH]; [apply rstrip_all_space; exact H|].
  cbn [String.append GeminiClient.rstrip]. rewrite IH. reflexivity.
Qed.

Lemma rstrip_nonspace_end (x : string) (c : ascii) :
  GeminiClient.is_space c = false ->
  GeminiClient.rstrip (x ++ String c EmptyString) = (x ++ String c EmptyString)%string.
Proof.
  intro Hc. induction x as [|d x IH].
  - cbn [String.append GeminiClient.rstrip]. rewrite Hc. reflexivity.
  - cbn [String.append GeminiClient.rstrip]. rewrite IH.
    destruct x; reflexivity.
Qed.

Lemma removesuffix_app (p x : string) :
  p <> EmptyString -> GeminiClient.removesuffix p (x ++ p) = x.
Proof.
  intro Hp. induction x as [|d x IH].
  - destruct p as [|c p]; [contradiction|].
    cbn [String.append GeminiClient.removesuffix]. rewrite String.eqb_refl. reflexivity.
  - cbn [String.append GeminiClient.removesuffix].
    destruct (String.eqb_spec (String d (x ++ p)) p) as [E|_].
    + exfalso. apply (f_equal String.length) in E.
      cbn [String.length] in E. rewrite length_append_string in E. lia.
    + rewrite IH. reflexivity.
Qed.

Lemma rstrip_idem (s : string) :
  GeminiClient.rstrip (GeminiClient.rstrip s) = GeminiClient.rstrip s.
Proof.
  induction s as [|c s IH]; [reflexivity|].
  cbn [GeminiClient.rstrip]. destruct (GeminiClient.rstrip s) as [|d t] eqn:E.
  - destruct (GeminiClient.is_space c) eqn:Ec; [reflexivity|].
    cbn [GeminiClient.rstrip]. rewrite Ec. reflexivity.
  - cbn [GeminiClient.rstrip]. cbn [GeminiClient.rstrip] in IH.
    destruct (match GeminiClient.rstrip t with
              | EmptyString =>
                  if GeminiClient.is_space d then EmptyString else String d EmptyString
              | String a s0 => String d (String a s0)
              end) eqn:F; [discriminate IH|].
    rewrite IH. reflexivity.
Qed.

Lemma lstrip_starts (s : string) :
  GeminiClient.lstrip s = EmptyString \/
  exists c t, GeminiClient.lstrip s = String c t /\ GeminiClient.is_space c = false.
Proof.
  induction s as [|c s IH]; [left; reflexivity|].
  cbn [GeminiClient.lstrip]. destruct (GeminiClient.is_space c) eqn:Ec; [exact IH|].
  right. exists c, s. split; [reflexivity|exact Ec].
Qed.

Lemma strip_idem (s : string) :
  GeminiClient.strip (GeminiClient.strip s) = GeminiClient.strip s.
Proof.
  unfold GeminiClient.strip.
  destruct (lstrip_starts s) as [E|(c & t & E & Hc)]; rewrite E; [reflexivity|].
  assert (R : exists t', GeminiClient.rstrip (String c t) = String c t').
  { cbn [GeminiClient.rstrip]. destruct (GeminiClient.rstrip t).
    - rewrite Hc. eexists. reflexivity.
    - eexists. reflexivity. }
  destruct R as [t' R].
  assert (L : GeminiClient.lstrip (GeminiClient.rstrip (String c t))
              = GeminiClient.rstrip (String c t)).
  { rewrite R. cbn [GeminiClient.lstrip]. rewrite Hc. reflexivity. }
  rewrite L. apply rstrip_idem.
Qed.

(** X14. The cleaning [generate_json] applies to a reply (line 57).  A
    reply wrapped in a [```json] fence, with any whitespace before the
    opening and after the closing fence, is reduced to what stands between
    the fences, stripped; and whatever the reply, the cleaned text has no
    whitespace left at either end. *)
Theorem clean_unfences (raw inner before behind : string) :
  all_space before = true ->
  all_space behind = true ->
  GeminiClient.clean (before ++ "```json" ++ inner ++ "```" ++ behind)
    = GeminiClient.strip inner /\
  GeminiClient.strip (GeminiClient.clean raw) = GeminiClient.clean raw.
Proof.
  intros Hb Ha. split; [|apply strip_idem].
  unfold GeminiClient.clean. unfold GeminiClient.strip at 2.
  rewrite (lstrip_spaces before _ Hb).
  assert (L : GeminiClient.lstrip ("```json" ++ inner ++ "```" ++ behind)
              = ("```json" ++ inner ++ "```" ++ behind)%string) by reflexivity.
  rewrite L.
  assert (A : ("```json" ++ inner ++ "```" ++ behind)%string
              = ((("```json" ++ inner ++ "``") ++ "`") ++ behind)%string).
  { rewrite !append_assoc_string. reflexivity. }
  rewrite A, (rstrip_spaces _ behind Ha), rstrip_nonspace_end by reflexivity.
  assert (P : GeminiClient.removeprefix "```json" (("```json" ++ inner ++ "``") ++ "`")
              = (inner ++ "```")%string).
  { rewrite !append_assoc_string. reflexivity. }
  rewrite P, removesuffix_app by discriminate. reflexivity.
Qed.

Lemma clean_unfences_witness :
  all_space " " = true /\ all_space GeminiClient.newline = true /\
  GeminiClient.clean (" " ++ "```json" ++ "{}" ++ "```" ++ GeminiClient.newline)
    = GeminiClient.strip "{}".
Proof.
  assert (H1 : all_space " " = true) by reflexivity.
  assert (H2 : all_space GeminiClient.newline = true) by reflexivity.
  split; [exact H1|]. split; [exact H2|].
  exact (proj1 (clean_unfences "" "{}" " " GeminiClient.newline H1 H2)).
Defined.
